(** * PushProx rendezvous coordinator ([proxy/coordinator.go])

    A shallow embedding of the coordinator: the three tables of the
    [Coordinator] struct as finite maps, the mutex-protected helpers as
    functions on the tables, and the blocking entry points ([DoScrape],
    [WaitForScrapeInstruction], [ScrapeResult]) as program-counter machines
    that synchronise on unbuffered channels.  Each critical section (a
    [c.mu.Lock()] ... [c.mu.Unlock()] pair) and each atomic operation is one
    step of the interleaving semantics. *)

From Stdlib Require Import ZArith Lia Ascii String DecimalString DecimalZ.
From stdpp Require Import gmap strings list fin_maps relations.

Local Open Scope string_scope.
Local Open Scope Z_scope.

(** ** Time *)

(** [time.Time] and [time.Duration] are counted in nanoseconds. *)
Definition Time := Z.
Definition Duration := Z.

Definition Second : Duration := 1000000000.
Definition Minute : Duration := 60 * Second.

(** [t.Unix()]: whole seconds since the epoch. *)
Definition Unix (t : Time) : Z := t / Second.

(** [t.Before(u)]. *)
Definition Before (t u : Time) : bool := t <? u.

(** [t.Add(d)]. *)
Definition Add (t : Time) (d : Duration) : Time := t + d.

(** [-d] for a [time.Duration], an [int64]: the negation wraps, so the
    least [int64] is its own negation; every other one negates as in [Z]
    (see [Duration_neg_wrap64] below). *)
Definition Duration_neg (d : Duration) : Duration :=
  if d =? - 2 ^ 63 then d else - d.

(** ** [fmt.Sprintf] with the verb [%d] *)

Definition fmt_d (z : Z) : string := NilZero.string_of_int (Z.to_int z).

(** [int64] arithmetic wraps around. *)
Definition wrap64 (z : Z) : Z := (z + 2 ^ 63) mod 2 ^ 64 - 2 ^ 63.

(** ** HTTP headers ([net/http.Header], a [map[string][]string]) *)

Abbreviation Header := (gmap string (list string)).

Module MIME.

Definition is_lower (c : ascii) : bool :=
  let n := nat_of_ascii c in (97 <=? n)%nat && (n <=? 122)%nat.
Definition is_upper (c : ascii) : bool :=
  let n := nat_of_ascii c in (65 <=? n)%nat && (n <=? 90)%nat.
Definition is_digit (c : ascii) : bool :=
  let n := nat_of_ascii c in (48 <=? n)%nat && (n <=? 57)%nat.

(** [validHeaderFieldByte]: the token characters of RFC 7230. *)
Definition validHeaderFieldByte (c : ascii) : bool :=
  is_lower c || is_upper c || is_digit c
  || bool_decide (c ∈ list_ascii_of_string "!#$%&'*+-.^_`|~").

Definition toUpper (c : ascii) : ascii :=
  if is_lower c then ascii_of_nat (nat_of_ascii c - 32) else c.
Definition toLower (c : ascii) : ascii :=
  if is_upper c then ascii_of_nat (nat_of_ascii c + 32) else c.

(** The rewriting loop of [canonicalMIMEHeaderKey]: the first letter and
    every letter after a hyphen in upper case, the others in lower case. *)
Fixpoint canon (upper : bool) (s : string) : string :=
  match s with
  | EmptyString => EmptyString
  | String c s' =>
      let c' := if upper then toUpper c else toLower c in
      String c' (canon (Ascii.eqb c' "-") s')
  end.

(** [textproto.CanonicalMIMEHeaderKey]: a key holding a byte that is not a
    token character is returned unchanged. *)
Definition CanonicalMIMEHeaderKey (s : string) : string :=
  if forallb validHeaderFieldByte (list_ascii_of_string s)
  then canon true s else s.

End MIME.

(** [h.Get(key)]: the first value stored under the canonical key, or the
    empty string. *)
Definition Header_Get (key : string) (h : Header) : string :=
  match h !! MIME.CanonicalMIMEHeaderKey key with
  | Some (v :: _) => v
  | _ => ""
  end.

(** [h.Add(key, value)]: appends to the values stored under the key. *)
Definition Header_Add (key value : string) (h : Header) : Header :=
  let k := MIME.CanonicalMIMEHeaderKey key in
  <[k := (default [] (h !! k) ++ [value])%list]> h.

(** [h.Del(key)]. *)
Definition Header_Del (key : string) (h : Header) : Header :=
  delete (MIME.CanonicalMIMEHeaderKey key) h.

(** ** Contexts *)

Inductive ctx_error := Canceled | DeadlineExceeded.

(** A [context.Context]: an optional deadline and the record of an explicit
    cancellation.  Its [Done()] channel is closed as soon as [Err()] is not
    nil, and [Err()] keeps its first value: a cancellation is recorded only
    while the context is live (see [LCancel] below), so a recorded
    cancellation came before the deadline. *)
Record Context := mkContext {
  ctx_deadline : option Time;
  ctx_cancelled : bool }.

Definition Context_Err (now : Time) (c : Context) : option ctx_error :=
  if ctx_cancelled c then Some Canceled
  else match ctx_deadline c with
       | Some d => if d <=? now then Some DeadlineExceeded else None
       | None => None
       end.

(** ** Requests and responses *)

(** What the coordinator reads of a [url.URL]: [String()] and
    [Hostname()]. *)
Record URL := mkURL {
  URL_String : string;
  URL_Hostname : string }.

Definition ctxid := nat.

(** The fields of [http.Request] the coordinator touches; [req_body]
    stands for everything else. *)
Record Request := mkRequest {
  req_URL : URL;
  req_Header : Header;
  req_ctx : ctxid;
  req_body : string }.

Record Response := mkResponse {
  resp_Header : Header;
  resp_body : string }.

(** The outcome of [DoScrape]'s first select when the context wins: the
    message built by [fmt.Errorf("Matching client not found for %q: %s",
    url, cause)], kept as its two arguments. *)
Inductive error :=
| MatchingClientNotFound (url : string) (cause : ctx_error)
| CtxErr (e : ctx_error).

(** ** The coordinator *)

Definition chan := nat.
Definition ptr := nat.

(** [type Coordinator struct].  The mutex [mu] is not a field of the model:
    every critical section is one atomic step. *)
Record Coordinator := mkCoordinator {
  waiting : gmap string chan;
  responses : gmap string chan;
  known : gmap string Time }.

(** The value [NewCoordinator] builds. *)
Definition NewCoordinator : Coordinator := mkCoordinator ∅ ∅ ∅.

Inductive DoScrape_result :=
| DS_ok (resp : ptr)
| DS_err (e : error).

(** Program points of [DoScrape(ctx, r)] (lines 83-102). *)
Inductive DoScrape_pc :=
| DS_entry
| DS_select1_enter (id : string)
| DS_select1 (id : string) (ch : chan)
| DS_getResponseChannel (id : string)
| DS_select2 (id : string) (respCh : chan)
| DS_deferred (id : string) (res : DoScrape_result)
| DS_return (res : DoScrape_result).

(** Program points of [WaitForScrapeInstruction(fqdn)] (lines 105-119). *)
Inductive Wait_pc :=
| W_entry
| W_getRequestChannel
| W_recv (ch : chan)
| W_select (ch : chan) (request : ptr)
| W_return (request : ptr).

(** Program points of [ScrapeResult(r)] (lines 122-136).  The context made
    by [context.WithTimeout(context.Background(), ..)] is kept as its
    deadline: its cancel function is dropped, so it ends in no other way. *)
Inductive Result_pc :=
| SR_entry
| SR_select_enter (id : string) (deadline : Time)
| SR_select (id : string) (deadline : Time) (ch : chan)
| SR_timeout (id : string)
| SR_return (err : option ctx_error).

(** A goroutine running one of the coordinator's functions. *)
Inductive Thread :=
| TDoScrape (ctx : ctxid) (r : ptr) (pc : DoScrape_pc)
| TWait (fqdn : string) (pc : Wait_pc)
| TScrapeResult (r : ptr) (pc : Result_pc)
| TKnownClients (res : option (list string))
| Tgc.

(** The process: the coordinator, the package variable [idCounter], the
    clock and pid the runtime reports, the channels made so far, the objects
    behind the [*http.Request] and [*http.Response] pointers, the contexts,
    and the goroutines. *)
Record World := mkWorld {
  coord : Coordinator;
  next_chan : chan;
  idCounter : Z;
  clock : Time;
  pid : Z;
  contexts : gmap ctxid Context;
  requests : gmap ptr Request;
  resps : gmap ptr Response;
  threads : list Thread }.

Definition set_coord (c : Coordinator) (w : World) : World :=
  mkWorld c (next_chan w) (idCounter w) (clock w) (pid w) (contexts w)
    (requests w) (resps w) (threads w).
Definition set_next_chan (n : chan) (w : World) : World :=
  mkWorld (coord w) n (idCounter w) (clock w) (pid w) (contexts w)
    (requests w) (resps w) (threads w).
Definition set_idCounter (n : Z) (w : World) : World :=
  mkWorld (coord w) (next_chan w) n (clock w) (pid w) (contexts w)
    (requests w) (resps w) (threads w).
Definition set_clock (t : Time) (w : World) : World :=
  mkWorld (coord w) (next_chan w) (idCounter w) t (pid w) (contexts w)
    (requests w) (resps w) (threads w).
Definition set_contexts (m : gmap ctxid Context) (w : World) : World :=
  mkWorld (coord w) (next_chan w) (idCounter w) (clock w) (pid w) m
    (requests w) (resps w) (threads w).
Definition set_requests (m : gmap ptr Request) (w : World) : World :=
  mkWorld (coord w) (next_chan w) (idCounter w) (clock w) (pid w) (contexts w)
    m (resps w) (threads w).
Definition set_resps (m : gmap ptr Response) (w : World) : World :=
  mkWorld (coord w) (next_chan w) (idCounter w) (clock w) (pid w) (contexts w)
    (requests w) m (threads w).
Definition set_threads (l : list Thread) (w : World) : World :=
  mkWorld (coord w) (next_chan w) (idCounter w) (clock w) (pid w) (contexts w)
    (requests w) (resps w) l.

(** Thread [t] moves to [th]. *)
Definition goto (t : nat) (th : Thread) (w : World) : World :=
  set_threads (<[t := th]> (threads w)) w.

(** [ctx.Err()]; an identifier that names no context behaves as
    [context.Background()]. *)
Definition ctx_err (w : World) (c : ctxid) : option ctx_error :=
  match contexts w !! c with
  | Some cx => Context_Err (clock w) cx
  | None => None
  end.

(** *** [genId] (lines 43-51) *)

Definition genId (w : World) : string * World :=
  let id := wrap64 (idCounter w + 1) in
  (fmt_d (Unix (clock w)) +:+ "-" +:+ fmt_d id +:+ "-" +:+ fmt_d (pid w),
   set_idCounter id w).

(** *** The critical sections (lines 53-80, 138-143) *)

Definition getRequestChannel (fqdn : string) (w : World) : chan * World :=
  match waiting (coord w) !! fqdn with
  | Some ch => (ch, w)
  | None =>
      let ch := next_chan w in
      let c := coord w in
      (ch, set_next_chan (S ch)
             (set_coord (mkCoordinator (<[fqdn := ch]> (waiting c))
                           (responses c) (known c)) w))
  end.

Definition getResponseChannel (id : string) (w : World) : chan * World :=
  match responses (coord w) !! id with
  | Some ch => (ch, w)
  | None =>
      let ch := next_chan w in
      let c := coord w in
      (ch, set_next_chan (S ch)
             (set_coord (mkCoordinator (waiting c)
                           (<[id := ch]> (responses c)) (known c)) w))
  end.

Definition removeResponseChannel (id : string) (w : World) : World :=
  let c := coord w in
  set_coord (mkCoordinator (waiting c) (delete id (responses c)) (known c)) w.

Definition addKnownClient (fqdn : string) (w : World) : World :=
  let c := coord w in
  set_coord (mkCoordinator (waiting c) (responses c)
               (<[fqdn := clock w]> (known c))) w.

Section Coordinator.

(** The flag [registration.timeout]. *)
Variable registrationTimeout : Duration.

(** [util.GetScrapeTimeout]: the wait a result's headers ask for (the
    function is defined outside this file and is left abstract). *)
Variable GetScrapeTimeout : Header -> Duration.

(** *** [KnownClients] (lines 146-158) and one round of [gc] (161-177) *)

Definition KnownClients (w : World) : list string :=
  let limit := Add (clock w) (Duration_neg registrationTimeout) in
  (filter (λ kt, Is_true (Before limit kt.2))
     (map_to_list (known (coord w)))).*1.

Definition gc_round (w : World) : World :=
  let limit := Add (clock w) (Duration_neg registrationTimeout) in
  let c := coord w in
  set_coord (mkCoordinator (waiting c) (responses c)
               (filter (λ kt, ¬ Is_true (Before kt.2 limit)) (known c))) w.

(** *** The goroutines, one step at a time *)

(** The next sequential action of [DoScrape].  A pointer that names no
    object leaves the step undefined (the Go code would panic on the nil
    dereference). *)
Definition DoScrape_run (t : nat) (ctx : ctxid) (r : ptr) (pc : DoScrape_pc)
    (w : World) : option World :=
  match pc with
  | DS_entry =>
      (* id := genId(); r.Header.Add("Id", id) *)
      rq ← requests w !! r;
      let '(id, w1) := genId w in
      let rq' := mkRequest (req_URL rq) (Header_Add "Id" id (req_Header rq))
                   (req_ctx rq) (req_body rq) in
      Some (goto t (TDoScrape ctx r (DS_select1_enter id))
              (set_requests (<[r := rq']> (requests w1)) w1))
  | DS_select1_enter id =>
      (* the send operand c.getRequestChannel(r.URL.Hostname()) *)
      rq ← requests w !! r;
      let '(ch, w1) := getRequestChannel (URL_Hostname (req_URL rq)) w in
      Some (goto t (TDoScrape ctx r (DS_select1 id ch)) w1)
  | DS_getResponseChannel id =>
      (* respCh := c.getResponseChannel(id) *)
      let '(ch, w1) := getResponseChannel id w in
      Some (goto t (TDoScrape ctx r (DS_select2 id ch)) w1)
  | DS_deferred id res =>
      (* defer c.removeResponseChannel(id) *)
      Some (goto t (TDoScrape ctx r (DS_return res))
              (removeResponseChannel id w))
  | DS_select1 _ _ | DS_select2 _ _ | DS_return _ => None
  end.

(** A select of [DoScrape] takes [case <-ctx.Done()]. *)
Definition DoScrape_done (t : nat) (ctx : ctxid) (r : ptr) (pc : DoScrape_pc)
    (w : World) : option World :=
  match pc with
  | DS_select1 id ch =>
      e ← ctx_err w ctx;
      rq ← requests w !! r;
      Some (goto t (TDoScrape ctx r (DS_return
              (DS_err (MatchingClientNotFound (URL_String (req_URL rq)) e)))) w)
  | DS_select2 id ch =>
      e ← ctx_err w ctx;
      Some (goto t (TDoScrape ctx r (DS_deferred id (DS_err (CtxErr e)))) w)
  | _ => None
  end.

(** The next sequential action of [WaitForScrapeInstruction]. *)
Definition Wait_run (t : nat) (fqdn : string) (pc : Wait_pc) (w : World)
    : option World :=
  match pc with
  | W_entry =>
      Some (goto t (TWait fqdn W_getRequestChannel) (addKnownClient fqdn w))
  | W_getRequestChannel =>
      let '(ch, w1) := getRequestChannel fqdn w in
      Some (goto t (TWait fqdn (W_recv ch)) w1)
  | W_select ch request =>
      (* select { case <-request.Context().Done(): default: return } *)
      rq ← requests w !! request;
      match ctx_err w (req_ctx rq) with
      | Some _ => Some (goto t (TWait fqdn (W_recv ch)) w)
      | None => Some (goto t (TWait fqdn (W_return request)) w)
      end
  | W_recv _ | W_return _ => None
  end.

(** The next sequential action of [ScrapeResult]. *)
Definition ScrapeResult_run (t : nat) (r : ptr) (pc : Result_pc) (w : World)
    : option World :=
  match pc with
  | SR_entry =>
      rs ← resps w !! r;
      let h := resp_Header rs in
      let id := Header_Get "Id" h in
      let deadline := Add (clock w) (GetScrapeTimeout h) in
      let h' := Header_Del "X-Prometheus-Scrape-Timeout-Seconds"
                  (Header_Del "Id" h) in
      Some (goto t (TScrapeResult r (SR_select_enter id deadline))
              (set_resps (<[r := mkResponse h' (resp_body rs)]> (resps w)) w))
  | SR_select_enter id deadline =>
      let '(ch, w1) := getResponseChannel id w in
      Some (goto t (TScrapeResult r (SR_select id deadline ch)) w1)
  | SR_timeout id =>
      Some (goto t (TScrapeResult r (SR_return (Some DeadlineExceeded)))
              (removeResponseChannel id w))
  | SR_select _ _ _ | SR_return _ => None
  end.

(** The select of [ScrapeResult] takes [case <-ctx.Done()]. *)
Definition ScrapeResult_done (t : nat) (r : ptr) (pc : Result_pc) (w : World)
    : option World :=
  match pc with
  | SR_select id deadline ch =>
      if deadline <=? clock w
      then Some (goto t (TScrapeResult r (SR_timeout id)) w)
      else None
  | _ => None
  end.

(** What can happen next. *)
Inductive Label :=
| LRun (t : nat)
| LDone (t : nat)
| LRequest (s r : nat)
| LResponse (s r : nat)
| LTick (d : Duration)
| LCancel (c : ctxid)
| LGo (th : Thread).

(** A goroutine starts at the entry of its function. *)
Definition is_entry (th : Thread) : bool :=
  match th with
  | TDoScrape _ _ DS_entry | TWait _ W_entry | TScrapeResult _ SR_entry
  | TKnownClients None | Tgc => true
  | _ => false
  end.

Definition step (l : Label) (w : World) : option World :=
  match l with
  | LRun t =>
      th ← threads w !! t;
      match th with
      | TDoScrape ctx r pc => DoScrape_run t ctx r pc w
      | TWait fqdn pc => Wait_run t fqdn pc w
      | TScrapeResult r pc => ScrapeResult_run t r pc w
      | TKnownClients None =>
          Some (goto t (TKnownClients (Some (KnownClients w))) w)
      | TKnownClients (Some _) => None
      | Tgc =>
          (* one iteration of [for range time.Tick(1 * time.Minute)]; when
             the ticker fires is left open *)
          Some (gc_round w)
      end
  | LDone t =>
      th ← threads w !! t;
      match th with
      | TDoScrape ctx r pc => DoScrape_done t ctx r pc w
      | TScrapeResult r pc => ScrapeResult_done t r pc w
      | _ => None
      end
  | LRequest s r =>
      (* [ch <- r] in DoScrape meets [request := <-ch] *)
      ths ← threads w !! s;
      thr ← threads w !! r;
      match ths, thr with
      | TDoScrape ctx p (DS_select1 id ch), TWait fqdn (W_recv ch') =>
          if decide (ch = ch')
          then Some (goto r (TWait fqdn (W_select ch' p))
                       (goto s (TDoScrape ctx p (DS_getResponseChannel id)) w))
          else None
      | _, _ => None
      end
  | LResponse s r =>
      (* [ch <- r] in ScrapeResult meets [resp := <-respCh] *)
      ths ← threads w !! s;
      thr ← threads w !! r;
      match ths, thr with
      | TScrapeResult p (SR_select id deadline ch),
        TDoScrape ctx rq (DS_select2 id' ch') =>
          if decide (ch = ch')
          then Some (goto r (TDoScrape ctx rq (DS_deferred id' (DS_ok p)))
                       (goto s (TScrapeResult p (SR_return None)) w))
          else None
      | _, _ => None
      end
  | LTick d =>
      if 0 <? d then Some (set_clock (clock w + d) w) else None
  | LCancel c =>
      cx ← contexts w !! c;
      match Context_Err (clock w) cx with
      | None =>
          Some (set_contexts
                  (<[c := mkContext (ctx_deadline cx) true]> (contexts w)) w)
      | Some _ => None
      end
  | LGo th =>
      if is_entry th then Some (set_threads (threads w ++ [th])%list w)
      else None
  end.

(** Runs of the system: a schedule is the list of what happens. *)
Fixpoint run (ls : list Label) (w : World) : option World :=
  match ls with
  | [] => Some w
  | l :: ls' => w' ← step l w; run ls' w'
  end.

(** * Predicates and measures used in the statements *)

(** The text [genId] prints for a second, a counter value and a pid. *)
Definition fmt_id (sec id p : Z) : string :=
  fmt_d sec +:+ "-" +:+ fmt_d id +:+ "-" +:+ fmt_d p.

(** The identifiers of successive calls of [genId], the clock reading
    [clocks !! i] at the [i]-th call.  A call is one atomic increment, so
    concurrent calls are some such sequence. *)
Fixpoint genIds (clocks : list Time) (w : World) : list string :=
  match clocks with
  | [] => []
  | t :: ts => let '(id, w') := genId (set_clock t w) in id :: genIds ts w'
  end.

(** The string holds decimal digits only. *)
Fixpoint all_digits (s : string) : bool :=
  match s with
  | EmptyString => true
  | String c s' => MIME.is_digit c && all_digits s'
  end.

(** Every recorded contact lies in the past (contacts are stamped with
    [time.Now()] and the clock only advances). *)
Definition known_past (w : World) : Prop :=
  ∀ k ts, known (coord w) !! k = Some ts → ts ≤ clock w.

(** Some goroutine is blocked in [request := <-ch] on the channel. *)
Definition receiver_ready (w : World) (ch : chan) : Prop :=
  ∃ t fqdn, threads w !! t = Some (TWait fqdn (W_recv ch)).

(** The program points of [DoScrape] past the handoff of the request; the
    outcomes there are a response or the context's own error. *)
Definition after_handoff (pc : DoScrape_pc) : Prop :=
  match pc with
  | DS_getResponseChannel _ | DS_select2 _ _ => True
  | DS_deferred _ (DS_ok _) | DS_return (DS_ok _) => True
  | DS_deferred _ (DS_err (CtxErr _)) | DS_return (DS_err (CtxErr _)) => True
  | _ => False
  end.

(** The two deletions of lines 127-128. *)
Definition strip_internal (h : Header) : Header :=
  Header_Del "X-Prometheus-Scrape-Timeout-Seconds" (Header_Del "Id" h).

(** Neither internal header is present. *)
Definition stripped (h : Header) : Prop :=
  h !! "Id" = None ∧ h !! "X-Prometheus-Scrape-Timeout-Seconds" = None.

(** The response object behind [p] has been stripped. *)
Definition resp_stripped (w : World) (p : ptr) : Prop :=
  ∃ rs, resps w !! p = Some rs ∧ stripped (resp_Header rs).


(** The response a goroutine holds once the internal headers are gone:
    [ScrapeResult] after its first step, [DoScrape] once it has received. *)
Definition holds_response (th : Thread) (p : ptr) : Prop :=
  match th with
  | TScrapeResult r (SR_select_enter _ _ | SR_select _ _ _) => p = r
  | TDoScrape _ _ (DS_deferred _ (DS_ok q) | DS_return (DS_ok q)) => p = q
  | _ => False
  end.

(** Every response on its way to a caller has been stripped. *)
Definition responses_stripped (w : World) : Prop :=
  ∀ t th p, threads w !! t = Some th → holds_response th p → resp_stripped w p.

(** The request after [r.Header.Add("Id", id)]. *)
Definition tag (rq : Request) (id : string) : Request :=
  mkRequest (req_URL rq) (Header_Add "Id" id (req_Header rq))
    (req_ctx rq) (req_body rq).

(** The identifier a program point of [DoScrape] carries. *)
Definition DS_id (d : DoScrape_pc) (id : string) : Prop :=
  match d with
  | DS_entry => False
  | DS_select1_enter i | DS_select1 i _ | DS_getResponseChannel i
  | DS_select2 i _ | DS_deferred i _ => i = id
  | DS_return _ => True
  end.

(** No other goroutine is started. *)
Definition no_go (l : Label) : bool :=
  match l with LGo _ => false | _ => true end.

(** A step of one of the goroutines (not of the clock or of a context's
    owner). *)
Definition thread_step (l : Label) : bool :=
  match l with
  | LRun _ | LDone _ | LRequest _ _ | LResponse _ _ => true
  | _ => false
  end.

(** How far each of the two goroutines is from the end of its function. *)
Definition DS_rank (d : DoScrape_pc) : nat :=
  match d with
  | DS_entry => 6 | DS_select1_enter _ => 5 | DS_select1 _ _ => 4
  | DS_getResponseChannel _ => 3 | DS_select2 _ _ => 2
  | DS_deferred _ _ => 1 | DS_return _ => 0
  end.
Definition W_rank (v : Wait_pc) : nat :=
  match v with
  | W_entry => 4 | W_getRequestChannel => 3 | W_recv _ => 2
  | W_select _ _ => 1 | W_return _ => 0
  end.
Definition rank (th : Thread) : nat :=
  match th with
  | TDoScrape _ _ d => DS_rank d
  | TWait _ v => W_rank v
  | _ => 0
  end.
Definition todo (w : World) : nat :=
  foldr (λ th n, (rank th + n)%nat) 0%nat (threads w).

Section Handoff.

(** The call [DoScrape(ctx, r)] on the request [rq], in a process whose
    counter was [c0] and whose pid is [pd], next to one
    [WaitForScrapeInstruction] for the request's host. *)
Variables (ctx : ctxid) (r : ptr) (rq : Request) (c0 pd : Z).

(** The program points of [DoScrape] up to the first select, and the
    return it takes when the context wins there. *)
Definition before_handoff (d : DoScrape_pc) : Prop :=
  match d with
  | DS_entry | DS_select1_enter _ | DS_select1 _ _
  | DS_return (DS_err (MatchingClientNotFound _ _)) => True
  | _ => False
  end.

(** What holds when the caller is at [d] and the waiter at [v]: the request
    is untouched before the first step and tagged with this call's
    identifier afterwards; a goroutine blocked on a channel holds the slot
    of the request's host; an error outcome means the caller's context is
    done, and no response outcome occurs (nobody sends one); the waiter
    holds a request only after the handoff, and then it is [r]; it waits
    again after the handoff only if the request's context is done. *)
Definition handoff_state (d : DoScrape_pc) (v : Wait_pc) (w : World) : Prop :=
  pid w = pd
  ∧ match d with
    | DS_entry => requests w !! r = Some rq ∧ idCounter w = c0
    | _ => ∃ sec, requests w !! r
                  = Some (tag rq (fmt_id sec (wrap64 (c0 + 1)) pd))
                  ∧ DS_id d (fmt_id sec (wrap64 (c0 + 1)) pd)
    end
  ∧ match d with
    | DS_select1 _ ch => waiting (coord w) !! URL_Hostname (req_URL rq) = Some ch
    | DS_return (DS_err _) | DS_deferred _ (DS_err _) => ctx_err w ctx ≠ None
    | DS_return (DS_ok _) | DS_deferred _ (DS_ok _) => False
    | _ => True
    end
  ∧ match v with
    | W_recv ch | W_select ch _ =>
        waiting (coord w) !! URL_Hostname (req_URL rq) = Some ch
    | _ => True
    end
  ∧ match v with
    | W_entry | W_getRequestChannel => before_handoff d
    | W_recv _ =>
        before_handoff d ∨ (after_handoff d ∧ ctx_err w (req_ctx rq) ≠ None)
    | W_select _ p | W_return p => p = r ∧ after_handoff d
    end.

(** The worlds the pair can be in. *)
Definition handoff_inv (w : World) : Prop :=
  ∃ d v, threads w = [TDoScrape ctx r d; TWait (URL_Hostname (req_URL rq)) v]
         ∧ handoff_state d v w.

End Handoff.

(** ** Channels and the keys they were made for *)

(** The table a channel was made for ([true]: the request table) and the
    key it was made under. *)
Abbreviation owners := (gmap chan (bool * string)).

(** The channel a goroutine is blocked on or has just received from. *)
Definition holds_chan (th : Thread) (ch : chan) : Prop :=
  match th with
  | TDoScrape _ _ (DS_select1 _ c | DS_select2 _ c) => c = ch
  | TWait _ (W_recv c | W_select c _) => c = ch
  | TScrapeResult _ (SR_select _ _ c) => c = ch
  | _ => False
  end.

(** A goroutine's channel was made for the key the goroutine asked for, and
    a request in the hands of a waiter is addressed to the waiter's host. *)
Definition thread_chans (own : owners) (w : World) (th : Thread) : Prop :=
  match th with
  | TDoScrape _ r (DS_select1 _ ch) =>
      ∃ rq, requests w !! r = Some rq
            ∧ own !! ch = Some (true, URL_Hostname (req_URL rq))
  | TDoScrape _ _ (DS_select2 id ch) => own !! ch = Some (false, id)
  | TWait fqdn (W_recv ch) => own !! ch = Some (true, fqdn)
  | TWait fqdn (W_select ch p) =>
      own !! ch = Some (true, fqdn)
      ∧ ∃ rq, requests w !! p = Some rq ∧ URL_Hostname (req_URL rq) = fqdn
  | TWait fqdn (W_return p) =>
      ∃ rq, requests w !! p = Some rq ∧ URL_Hostname (req_URL rq) = fqdn
  | TScrapeResult _ (SR_select id _ ch) => own !! ch = Some (false, id)
  | _ => True
  end.

(** Every channel in use was made by one of the two lookups, for one key of
    one table, before the next channel to be made. *)
Definition chans_inv (w : World) : Prop :=
  ∃ own : owners,
    (∀ ch x, own !! ch = Some x → (ch < next_chan w)%nat)
    ∧ (∀ k ch, waiting (coord w) !! k = Some ch → own !! ch = Some (true, k))
    ∧ (∀ k ch, responses (coord w) !! k = Some ch → own !! ch = Some (false, k))
    ∧ (∀ t th, threads w !! t = Some th → thread_chans own w th).

(** A coordinator as [NewCoordinator] leaves it, with goroutines that have
    not started yet. *)
Definition fresh_start (w : World) : Prop :=
  waiting (coord w) = ∅ ∧ responses (coord w) = ∅
  ∧ Forall (λ th, is_entry th = true) (threads w).

(** ** Concrete worlds *)

(** A scrape of [node1] submitted at 1 700 000 000 s by process 4242, next
    to the agent of [node1]; context 7 has no deadline. *)
Definition ex_rq : Request :=
  mkRequest (mkURL "http://node1:9100/metrics" "node1") ∅ 7%nat "GET".

(** The agent's answer, with the two internal headers. *)
Definition ex_resp : Response :=
  mkResponse
    {[ "Id" := ["1700000000-1-4242"];
       "X-Prometheus-Scrape-Timeout-Seconds" := ["10"];
       "Content-Type" := ["text/plain"] ]}
    "up 1".

(** A fresh coordinator with the given goroutines; [cancelled] tells
    whether context 7 has been cancelled. *)
Definition ex_world (ths : list Thread) (cancelled : bool) : World :=
  mkWorld NewCoordinator 0%nat 0 (1700000000 * Second) 4242
    {[ 7%nat := mkContext None cancelled ]}
    {[ 0%nat := ex_rq ]} {[ 0%nat := ex_resp ]} ths.

(** The caller and the agent. *)
Definition ex_pair : World :=
  ex_world [TDoScrape 7%nat 0%nat DS_entry; TWait "node1" W_entry] false.

(** The caller, the agent, and the agent's later [ScrapeResult]. *)
Definition ex_trio : World :=
  ex_world [TDoScrape 7%nat 0%nat DS_entry; TWait "node1" W_entry;
            TScrapeResult 0%nat SR_entry] false.

(** The request goes from the caller to the agent ... *)
Definition ex_handoff : list Label :=
  [LRun 0%nat; LRun 0%nat; LRun 1%nat; LRun 1%nat; LRequest 0%nat 1%nat;
   LRun 1%nat].

(** ... and the response from the agent back to the caller. *)
Definition ex_round_trip : list Label :=
  (ex_handoff ++ [LRun 0%nat; LRun 2%nat; LRun 2%nat; LResponse 2%nat 0%nat;
                  LRun 0%nat])%list.

(** A stand-in for [util.GetScrapeTimeout]: ten seconds. *)
Definition ex_timeout (h : Header) : Duration := 10 * Second.

(** A registry with a fresh and a stale client. *)
Definition ex_registry : World :=
  mkWorld (mkCoordinator ∅ ∅
             {[ "fresh" := 1700000000 * Second - Minute;
                "stale" := 1700000000 * Second - 10 * Minute ]})
    0%nat 0 (1700000000 * Second) 4242 ∅ ∅ ∅ [TKnownClients None; Tgc].

(** * Properties *)

(** Unfold one step of the semantics down to the table operations. *)
Ltac unfold_step :=
  unfold step, DoScrape_run, DoScrape_done, Wait_run, ScrapeResult_run,
    ScrapeResult_done, getRequestChannel, getResponseChannel,
    removeResponseChannel, addKnownClient, gc_round, genId, goto,
    set_coord, set_next_chan, set_idCounter, set_clock, set_contexts,
    set_requests, set_resps, set_threads in *.

Ltac step_cases H :=
  unfold_step; simpl in H;
  repeat (first
    [ progress simplify_option_eq
    | match goal with
      | H' : context [match ?x with _ => _ end] |- _ => destruct x eqn:?
      end ]);
  simpl in *.

(** ** The response table: removal *)

Lemma removeResponseChannel_lookup id w :
  responses (coord (removeResponseChannel id w)) !! id = None.
Proof. simpl. apply lookup_delete_eq. Qed.

Lemma removeResponseChannel_idem id w :
  removeResponseChannel id (removeResponseChannel id w)
  = removeResponseChannel id w.
Proof.
  unfold removeResponseChannel, set_coord; simpl.
  by rewrite delete_delete_eq.
Qed.

Lemma removeResponseChannel_iter id w n :
  Nat.iter (S n) (removeResponseChannel id) w = removeResponseChannel id w.
Proof.
  induction n as [|n IH]; [done|].
  change (Nat.iter (S (S n)) (removeResponseChannel id) w)
    with (removeResponseChannel id (Nat.iter (S n) (removeResponseChannel id) w)).
  by rewrite IH, removeResponseChannel_idem.
Qed.

(** C5.  [removeResponseChannel] is idempotent and total: any number of
    calls for one identifier leaves the world a single call leaves, the table
    then holds no slot for the identifier (whether or not one was there), and
    the two removal paths -- the deferred call of [DoScrape] and the timeout
    branch of [ScrapeResult] -- both run, in either order, without being
    blocked by the other. *)
Theorem removeResponseChannel_idempotent :
  ∀ (id : string) (w : World) (n : nat),
    Nat.iter (S n) (removeResponseChannel id) w = removeResponseChannel id w
    ∧ responses (coord (Nat.iter (S n) (removeResponseChannel id) w)) !! id = None
    ∧ (∀ t1 ctx r1 res t2 r2,
         (∃ w1 w2,
            DoScrape_run t1 ctx r1 (DS_deferred id res) w = Some w1
            ∧ ScrapeResult_run t2 r2 (SR_timeout id) w1 = Some w2
            ∧ responses (coord w1) !! id = None
            ∧ responses (coord w2) !! id = None)
         ∧ (∃ w1 w2,
            ScrapeResult_run t2 r2 (SR_timeout id) w = Some w1
            ∧ DoScrape_run t1 ctx r1 (DS_deferred id res) w1 = Some w2
            ∧ responses (coord w1) !! id = None
            ∧ responses (coord w2) !! id = None)).
Proof.
  intros id w n. rewrite removeResponseChannel_iter.
  split; [done|]. split; [apply removeResponseChannel_lookup|].
  intros; split; eexists _, _; simpl;
    (split; [reflexivity|]); (split; [reflexivity|]); simpl;
    rewrite ?delete_delete_eq; split; apply lookup_delete_eq.
Qed.

(** ** The request table *)






(** ** The registry of known clients *)

(** On the [int64] range, [Duration_neg] is the negation taken modulo
    [2^64]. *)
Lemma Duration_neg_wrap64 d :
  - 2 ^ 63 ≤ d < 2 ^ 63 → Duration_neg d = wrap64 (- d).
Proof.
  intros Hd. unfold Duration_neg, wrap64.
  destruct (d =? - 2 ^ 63) eqn:E.
  - apply Z.eqb_eq in E. by subst.
  - apply Z.eqb_neq in E. rewrite Z.mod_small by lia. lia.
Qed.

Lemma neg_registrationTimeout :
  registrationTimeout ≠ - 2 ^ 63 →
  Duration_neg registrationTimeout = - registrationTimeout.
Proof.
  intros Hmin. unfold Duration_neg.
  by destruct (registrationTimeout =? - 2 ^ 63) eqn:E;
    [apply Z.eqb_eq in E|].
Qed.

Lemma neg_registrationTimeout_min :
  registrationTimeout = - 2 ^ 63 →
  Duration_neg registrationTimeout = - 2 ^ 63.
Proof. by intros ->. Qed.

Lemma KnownClients_limit w k :
  k ∈ KnownClients w ↔
  ∃ ts, known (coord w) !! k = Some ts
        ∧ clock w + Duration_neg registrationTimeout < ts.
Proof.
  unfold KnownClients, Add, Before. rewrite list_elem_of_fmap. split.
  - intros [[k' ts] [-> H]]. apply list_elem_of_filter in H as [Hb H].
    apply elem_of_map_to_list in H. simpl in *.
    exists ts. split; [done|]. by apply Is_true_true, Z.ltb_lt in Hb.
  - intros (ts & H & Hlt). exists (k, ts). split; [done|].
    apply list_elem_of_filter. split; [|by apply elem_of_map_to_list].
    simpl. by apply Is_true_true, Z.ltb_lt.
Qed.

Lemma gc_round_limit w k (ts : Time) :
  known (coord (gc_round w)) !! k = Some ts ↔
  known (coord w) !! k = Some ts
  ∧ clock w + Duration_neg registrationTimeout ≤ ts.
Proof.
  simpl. rewrite map_lookup_filter_Some. simpl. unfold Before, Add.
  split; intros [Hk Hb]; (split; [done|]).
  - destruct (ts <? clock w + Duration_neg registrationTimeout) eqn:E.
    + exfalso. by apply Hb.
    + by apply Z.ltb_ge in E.
  - intros Hlt%Is_true_true%Z.ltb_lt. lia.
Qed.

Lemma KnownClients_spec w k :
  registrationTimeout ≠ - 2 ^ 63 →
  (k ∈ KnownClients w ↔
   ∃ ts, known (coord w) !! k = Some ts ∧ clock w - ts < registrationTimeout).
Proof.
  intros Hmin. rewrite KnownClients_limit, (neg_registrationTimeout Hmin).
  split; intros (ts & Hk & Hlt); exists ts; (split; [done|lia]).
Qed.

Lemma KnownClients_NoDup w : NoDup (KnownClients w).
Proof.
  unfold KnownClients.
  apply (sublist_NoDup _ ((map_to_list (known (coord w))).*1)).
  - apply NoDup_fst_map_to_list.
  - apply fmap_sublist, sublist_filter.
Qed.

Lemma step_known_removed l w w' k (ts : Time) :
  step l w = Some w' →
  known (coord w) !! k = Some ts →
  known (coord w') !! k = None →
  ∃ g, l = LRun g ∧ threads w !! g = Some Tgc
       ∧ ts < clock w + Duration_neg registrationTimeout.
Proof.
  intros H Hk Hn. destruct l; step_cases H; try (exfalso; congruence).
  - destruct (decide (fqdn = k)) as [->|Hne].
    + by rewrite lookup_insert_eq in Hn.
    + rewrite lookup_insert_ne in Hn by done. exfalso. congruence.
  - exists t. split; [done|]. split; [done|].
    apply map_lookup_filter_None in Hn as [Hn|Hn]; [congruence|].
    specialize (Hn ts Hk). simpl in Hn. unfold Before, Add in Hn.
    destruct (ts <? clock w + Duration_neg registrationTimeout) eqn:E.
    + by apply Z.ltb_lt in E.
    + exfalso. apply Hn. intros [].
Qed.

(** A round of [gc] is always ready to run. *)
Lemma step_gc w g :
  threads w !! g = Some Tgc → step (LRun g) w = Some (gc_round w).
Proof. intros Hg. simpl. by rewrite Hg. Qed.

Lemma step_known_past l w w' :
  step l w = Some w' → known_past w → known_past w'.
Proof.
  intros H Hp k ts Hk. destruct l; step_cases H;
    try (by eapply Hp).
  - (* addKnownClient *)
    apply lookup_insert_Some in Hk as [[_ <-]|[_ Hk]]; [lia|by eapply Hp].
  - (* gc *)
    apply map_lookup_filter_Some in Hk as [Hk _]. by eapply Hp.
  - (* the clock advances *)
    apply Z.ltb_lt in Heqb. specialize (Hp _ _ Hk). lia.
Qed.

(** C9.  For a registration timeout other than the least [int64] (whose
    negation wraps): a pending call of [KnownClients] always returns, and it
    returns, without repetition, exactly the clients whose last contact is
    less than [registrationTimeout] before the current time (contacts never
    lie in the future: that is kept by every step); the call changes nothing
    of the coordinator (only the caller's own goroutine moves, to its
    result).  In any world, whether or not a call of [KnownClients] is
    pending, an entry disappears from the registry only in a round of [gc]
    and only when its time is before the limit; and a round of [gc], which
    is always ready to run, removes every entry before the limit and keeps
    the others as they are. *)
Theorem KnownClients_pure_read :
  registrationTimeout ≠ - 2 ^ 63 →
  (∀ (w : World) (t : nat),
     threads w !! t = Some (TKnownClients None) →
     ∃ w', step (LRun t) w = Some w'
       ∧ threads w' = <[t := TKnownClients (Some (KnownClients w))]> (threads w)
       ∧ (∀ k, k ∈ KnownClients w ↔
               ∃ ts, known (coord w) !! k = Some ts
                     ∧ clock w - ts < registrationTimeout)
       ∧ NoDup (KnownClients w)
       ∧ coord w' = coord w
       ∧ (known_past w →
          ∀ k, k ∈ KnownClients w ↔
               ∃ ts, known (coord w) !! k = Some ts
                     ∧ 0 ≤ clock w - ts < registrationTimeout))
  ∧ (∀ l w0 w1 k (ts : Time),
       step l w0 = Some w1 →
       known (coord w0) !! k = Some ts →
       known (coord w1) !! k = None →
       ∃ g, l = LRun g ∧ threads w0 !! g = Some Tgc
            ∧ ts < clock w0 - registrationTimeout)
  ∧ (∀ w0 g,
       threads w0 !! g = Some Tgc →
       ∃ w1, step (LRun g) w0 = Some w1
             ∧ ∀ k (ts : Time), known (coord w1) !! k = Some ts ↔
                       known (coord w0) !! k = Some ts
                       ∧ clock w0 - registrationTimeout ≤ ts)
  ∧ (∀ l w0 w1, step l w0 = Some w1 → known_past w0 → known_past w1).
Proof.
  intros Hmin. split; [|split; [|split]].
  - intros w t Ht.
    exists (goto t (TKnownClients (Some (KnownClients w))) w).
    split; [simpl; by rewrite Ht|]. split; [done|].
    split; [intros k; by apply KnownClients_spec|].
    split; [apply KnownClients_NoDup|]. split; [done|].
    intros Hp k. rewrite (KnownClients_spec _ _ Hmin). split.
    + intros (ts & Hk & Hlt). exists ts. split; [done|].
      specialize (Hp _ _ Hk). lia.
    + intros (ts & Hk & Hlt). exists ts. split; [done|lia].
  - intros l w0 w1 k ts Hs Hk Hn.
    destruct (step_known_removed _ _ _ _ _ Hs Hk Hn) as (g & -> & Hg & Hlt).
    rewrite (neg_registrationTimeout Hmin) in Hlt.
    exists g. split; [done|]. split; [done|lia].
  - intros w0 g Hg. exists (gc_round w0). split; [by apply step_gc|].
    intros k ts. rewrite gc_round_limit, (neg_registrationTimeout Hmin).
    split; intros [Hk Hle]; (split; [done|lia]).
  - intros l w0 w1 Hs. by eapply step_known_past.
Qed.

(** ** Identifiers *)

Lemma all_digits_uint d : all_digits (NilEmpty.string_of_uint d) = true.
Proof. induction d; simpl; auto. Qed.

Lemma fmt_d_NilEmpty z : fmt_d z = NilEmpty.string_of_int (Z.to_int z).
Proof.
  unfold fmt_d. destruct z as [|p|p]; simpl; [done| |];
    pose proof (DecimalPos.Unsigned.to_uint_nonnil p) as Hn;
    unfold NilZero.string_of_uint; by destruct (Pos.to_uint p).
Qed.

Lemma fmt_d_inj a b : fmt_d a = fmt_d b → a = b.
Proof.
  rewrite !fmt_d_NilEmpty. intros H. apply DecimalZ.to_int_inj.
  apply (f_equal NilEmpty.int_of_string) in H.
  rewrite !NilEmpty.isi in H. congruence.
Qed.

(** A printed number: an optional sign, then digits, at least one. *)
Lemma fmt_d_shape z :
  ∃ c u, MIME.is_digit c = true ∧ all_digits u = true
         ∧ (fmt_d z = String c u ∨ fmt_d z = String "-" (String c u)).
Proof.
  rewrite fmt_d_NilEmpty.
  assert (∀ d, d ≠ Decimal.Nil →
            ∃ c u, MIME.is_digit c = true ∧ all_digits u = true
                   ∧ NilEmpty.string_of_uint d = String c u) as Hu.
  { intros d Hd. pose proof (all_digits_uint d) as Ha.
    destruct (NilEmpty.string_of_uint d) as [|c u] eqn:E.
    - by destruct d.
    - simpl in Ha. apply andb_true_iff in Ha as [??]. eauto. }
  destruct z as [|p|p]; simpl.
  - exists "0"%char, EmptyString. auto.
  - destruct (Hu _ (DecimalPos.Unsigned.to_uint_nonnil p)) as (c & u & ? & ? & ->).
    eauto 6.
  - destruct (Hu _ (DecimalPos.Unsigned.to_uint_nonnil p)) as (c & u & ? & ? & ->).
    eauto 6.
Qed.

Lemma digits_sep_inj u1 : ∀ u2 r1 r2,
  all_digits u1 = true → all_digits u2 = true →
  u1 +:+ String "-" r1 = u2 +:+ String "-" r2 → u1 = u2 ∧ r1 = r2.
Proof.
  induction u1 as [|c u1 IH]; intros [|c2 u2] r1 r2 H1 H2 E; simpl in *.
  - by simplify_eq.
  - by simplify_eq.
  - by simplify_eq.
  - apply andb_true_iff in H1 as [_ H1]. apply andb_true_iff in H2 as [_ H2].
    injection E as -> E. destruct (IH _ _ _ H1 H2 E) as [-> ->]. done.
Qed.

Lemma fmt_d_sep_inj a b r1 r2 :
  fmt_d a +:+ String "-" r1 = fmt_d b +:+ String "-" r2 → a = b ∧ r1 = r2.
Proof.
  intros E.
  destruct (fmt_d_shape a) as (c1 & u1 & Hc1 & Hu1 & Ha).
  destruct (fmt_d_shape b) as (c2 & u2 & Hc2 & Hu2 & Hb).
  assert (all_digits (String c1 u1) = true) as H1 by (simpl; by rewrite Hc1).
  assert (all_digits (String c2 u2) = true) as H2 by (simpl; by rewrite Hc2).
  assert (fmt_d a = fmt_d b ∧ r1 = r2) as [Hab ->];
    [|split; [by apply fmt_d_inj | done]].
  destruct Ha as [Ha|Ha], Hb as [Hb|Hb]; rewrite Ha, Hb in E |- *.
  - destruct (digits_sep_inj _ _ _ _ H1 H2 E) as [-> ->]. done.
  - simpl in E. injection E as -> _. done.
  - simpl in E. injection E as <- _. done.
  - change (String "-" (String c1 u1) +:+ String "-" r1)
      with (String "-" (String c1 u1 +:+ String "-" r1)) in E.
    change (String "-" (String c2 u2) +:+ String "-" r2)
      with (String "-" (String c2 u2 +:+ String "-" r2)) in E.
    assert (String c1 u1 +:+ String "-" r1 = String c2 u2 +:+ String "-" r2)
      as E' by congruence.
    destruct (digits_sep_inj _ _ _ _ H1 H2 E') as [-> ->]. done.
Qed.

Lemma fmt_id_inj s1 i1 p1 s2 i2 p2 :
  fmt_id s1 i1 p1 = fmt_id s2 i2 p2 → s1 = s2 ∧ i1 = i2 ∧ p1 = p2.
Proof.
  unfold fmt_id. intros E.
  apply fmt_d_sep_inj in E as [-> E].
  apply fmt_d_sep_inj in E as [-> E].
  by apply fmt_d_inj in E as ->.
Qed.

Lemma wrap64_add x y : wrap64 (wrap64 x + y) = wrap64 (x + y).
Proof.
  unfold wrap64. f_equal.
  replace ((x + 2 ^ 63) mod 2 ^ 64 - 2 ^ 63 + y + 2 ^ 63)
    with ((x + 2 ^ 63) mod 2 ^ 64 + y) by lia.
  rewrite Zplus_mod_idemp_l. f_equal. lia.
Qed.

Lemma wrap64_inj_near x k :
  0 < k < 2 ^ 64 → wrap64 x ≠ wrap64 (x + k).
Proof.
  unfold wrap64. intros Hk E.
  assert ((x + 2 ^ 63) mod 2 ^ 64 = (x + k + 2 ^ 63) mod 2 ^ 64) as E' by lia.
  pose proof (Z.div_mod (x + 2 ^ 63) (2 ^ 64) ltac:(lia)) as D1.
  pose proof (Z.div_mod (x + k + 2 ^ 63) (2 ^ 64) ltac:(lia)) as D2.
  assert (k = 2 ^ 64 * ((x + k + 2 ^ 63) / 2 ^ 64 - (x + 2 ^ 63) / 2 ^ 64))
    as Hm by lia.
  nia.
Qed.

Lemma genId_eq w :
  genId w = (fmt_id (Unix (clock w)) (wrap64 (idCounter w + 1)) (pid w),
             set_idCounter (wrap64 (idCounter w + 1)) w).
Proof. done. Qed.

Lemma genIds_elem clocks : ∀ w s,
  s ∈ genIds clocks w →
  ∃ sec k, 1 ≤ k ≤ Z.of_nat (length clocks)
           ∧ s = fmt_id sec (wrap64 (idCounter w + k)) (pid w).
Proof.
  induction clocks as [|t ts IH]; intros w s Hs; simpl in Hs.
  - by apply elem_of_nil in Hs.
  - apply elem_of_cons in Hs as [->|Hs].
    + exists (Unix t), 1. split; [simpl length; lia | done].
    + apply IH in Hs as (sec & k & Hk & ->). simpl.
      exists sec, (1 + k). split; [simpl length; lia|].
      by rewrite wrap64_add, Z.add_assoc.
Qed.

Lemma genIds_NoDup clocks : ∀ w,
  Z.of_nat (length clocks) ≤ 2 ^ 64 → NoDup (genIds clocks w).
Proof.
  induction clocks as [|t ts IH]; intros w Hlen; simpl.
  - constructor.
  - simpl length in Hlen. constructor; [|apply IH; lia].
    intros Hin. apply genIds_elem in Hin as (sec & k & Hk & E).
    simpl in E. apply fmt_id_inj in E as (_ & E & _).
    rewrite wrap64_add in E.
    apply (wrap64_inj_near (idCounter w + 1) k); [lia|].
    by rewrite E.
Qed.

(** C4 (as amended).  [genId] prints the second of the call (the clock read
    at the call, not the time the process started), the incremented counter
    and the pid; printing is injective, so two identifiers are equal exactly
    when second, counter and pid agree; hence the identifiers of at most
    [2^64] successive calls in one process are pairwise distinct, whatever
    the clock does. *)
Theorem genId_unique_within_process :
  ∀ (clocks : list Time) (w : World),
    Z.of_nat (length clocks) ≤ 2 ^ 64 →
    NoDup (genIds clocks w)
    ∧ (∀ w0, (genId w0).1
             = fmt_d (Unix (clock w0)) +:+ "-"
               +:+ fmt_d (wrap64 (idCounter w0 + 1)) +:+ "-" +:+ fmt_d (pid w0)
             ∧ idCounter (genId w0).2 = wrap64 (idCounter w0 + 1))
    ∧ (∀ w1 w2, (genId w1).1 = (genId w2).1 ↔
                Unix (clock w1) = Unix (clock w2)
                ∧ wrap64 (idCounter w1 + 1) = wrap64 (idCounter w2 + 1)
                ∧ pid w1 = pid w2).
Proof.
  intros clocks w Hlen. split; [by apply genIds_NoDup|].
  split; [done|]. intros w1 w2. rewrite !genId_eq. simpl. split.
  - apply fmt_id_inj.
  - by intros (-> & -> & ->).
Qed.

(** ** Goroutines and their program points *)

(** Resolve lookups in an updated goroutine list. *)
Ltac thread_lookup :=
  repeat match goal with
  | H : <[_ := _]> _ !! _ = Some _ |- _ =>
      apply list_lookup_insert_Some in H as [(? & ? & ?)|[? ?]]; simplify_eq
  | H : (_ ++ [_])%list !! _ = Some _ |- _ =>
      apply lookup_snoc_Some in H as [[? ?]|[? ?]]; simplify_eq
  end;
  try match goal with
  | H : ?l !! length ?l = Some _ |- _ =>
      exfalso; apply lookup_lt_Some in H; lia
  end.

Lemma step_enters_W_return l w w' t fqdn p :
  step l w = Some w' →
  threads w' !! t = Some (TWait fqdn (W_return p)) →
  threads w !! t ≠ Some (TWait fqdn (W_return p)) →
  ∃ ch rq, l = LRun t
           ∧ threads w !! t = Some (TWait fqdn (W_select ch p))
           ∧ requests w' !! p = Some rq
           ∧ ctx_err w' (req_ctx rq) = None.
Proof.
  intros H Ht Hn. destruct l; step_cases H; thread_lookup;
    try congruence; try done.
  eexists _, _. by repeat split.
Qed.

(** C2.  [WaitForScrapeInstruction] hands out only requests whose context is
    not done when it returns: holding a request received from the slot, it
    returns it if the request's context is live and goes back to receive on
    the same slot, dropping the request, if the context is done; and the
    return point is entered by no other step, so whenever a goroutine
    arrives at [return request, nil] the request's context is live in the
    world it returns in. *)
Theorem WaitForScrapeInstruction_skips_done :
  ∀ (w : World) (t : nat) (fqdn : string) (ch : chan) (p : ptr) (rq : Request),
    threads w !! t = Some (TWait fqdn (W_select ch p)) →
    requests w !! p = Some rq →
    (ctx_err w (req_ctx rq) = None →
       step (LRun t) w = Some (goto t (TWait fqdn (W_return p)) w))
    ∧ (ctx_err w (req_ctx rq) ≠ None →
       step (LRun t) w = Some (goto t (TWait fqdn (W_recv ch)) w))
    ∧ (∀ l w0 w1 t' fqdn' p',
         step l w0 = Some w1 →
         threads w1 !! t' = Some (TWait fqdn' (W_return p')) →
         threads w0 !! t' ≠ Some (TWait fqdn' (W_return p')) →
         ∃ ch' rq', l = LRun t'
           ∧ threads w0 !! t' = Some (TWait fqdn' (W_select ch' p'))
           ∧ requests w1 !! p' = Some rq'
           ∧ ctx_err w1 (req_ctx rq') = None).
Proof.
  intros w t fqdn ch p rq Ht Hp. split; [|split].
  - intros Hl. simpl. rewrite Ht. simpl. rewrite Hp. simpl. by rewrite Hl.
  - intros Hd. simpl. rewrite Ht. simpl. rewrite Hp. simpl.
    by destruct (ctx_err w (req_ctx rq)).
  - intros l w0 w1 t' fqdn' p'. apply step_enters_W_return.
Qed.

(** ** [DoScrape] and its context *)

Lemma step_LRun_DoScrape w t ctx r pc :
  threads w !! t = Some (TDoScrape ctx r pc) →
  step (LRun t) w = DoScrape_run t ctx r pc w.
Proof. intros Ht. simpl. by rewrite Ht. Qed.

Lemma step_LDone_DoScrape w t ctx r pc :
  threads w !! t = Some (TDoScrape ctx r pc) →
  step (LDone t) w = DoScrape_done t ctx r pc w.
Proof. intros Ht. simpl. by rewrite Ht. Qed.

Lemma step_LRun_ScrapeResult w t r pc :
  threads w !! t = Some (TScrapeResult r pc) →
  step (LRun t) w = ScrapeResult_run t r pc w.
Proof. intros Ht. simpl. by rewrite Ht. Qed.

Lemma step_LDone_ScrapeResult w t r pc :
  threads w !! t = Some (TScrapeResult r pc) →
  step (LDone t) w = ScrapeResult_done t r pc w.
Proof. intros Ht. simpl. by rewrite Ht. Qed.

Lemma goto_lookup w t th :
  (t < length (threads w))%nat → threads (goto t th w) !! t = Some th.
Proof. intros H. simpl. by apply list_lookup_insert_eq. Qed.

(** What the two table lookups leave alone. *)
Lemma getRequestChannel_frame fqdn w :
  let w1 := (getRequestChannel fqdn w).2 in
  threads w1 = threads w ∧ contexts w1 = contexts w ∧ clock w1 = clock w
  ∧ requests w1 = requests w ∧ resps w1 = resps w
  ∧ responses (coord w1) = responses (coord w)
  ∧ known (coord w1) = known (coord w)
  ∧ idCounter w1 = idCounter w ∧ pid w1 = pid w.
Proof.
  unfold getRequestChannel. by destruct (waiting (coord w) !! fqdn).
Qed.



Lemma DoScrape_done_at_entry w t ctx r rq e :
  threads w !! t = Some (TDoScrape ctx r DS_entry) →
  requests w !! r = Some rq →
  ctx_err w ctx = Some e →
  ∃ w', run [LRun t; LRun t; LDone t] w = Some w'
        ∧ threads w' !! t
          = Some (TDoScrape ctx r (DS_return
              (DS_err (MatchingClientNotFound (URL_String (req_URL rq)) e))))
        ∧ responses (coord w') = responses (coord w).
Proof.
  intros Ht Hr He. pose proof (lookup_lt_Some _ _ _ Ht) as Hlt.
  cbn [run]. rewrite (step_LRun_DoScrape _ _ _ _ _ Ht).
  cbn [DoScrape_run]. rewrite Hr. cbn [mbind option_bind].
  rewrite genId_eq. cbn [mbind option_bind].
  set (id := fmt_id _ _ _).
  set (w1 := goto t _ _).
  assert (threads w1 !! t = Some (TDoScrape ctx r (DS_select1_enter id))) as Ht1
    by (by apply goto_lookup).
  rewrite (step_LRun_DoScrape _ _ _ _ _ Ht1). cbn [DoScrape_run].
  assert (requests w1 !! r = Some (mkRequest (req_URL rq)
            (Header_Add "Id" id (req_Header rq)) (req_ctx rq) (req_body rq)))
    as Hr1 by apply lookup_insert_eq.
  rewrite Hr1. cbn [mbind option_bind req_URL].
  pose proof (getRequestChannel_frame (URL_Hostname (req_URL rq)) w1)
    as (Hth & Hcx & Hck & Hrq & _ & Hrs & _).
  destruct (getRequestChannel _ w1) as [ch w2]. cbn [snd] in *.
  cbn [mbind option_bind].
  set (w3 := goto t _ w2).
  assert (threads w3 !! t = Some (TDoScrape ctx r (DS_select1 id ch))) as Ht3.
  { apply goto_lookup. rewrite Hth. subst w1. simpl.
    by rewrite length_insert. }
  rewrite (step_LDone_DoScrape _ _ _ _ _ Ht3). cbn [DoScrape_done].
  assert (ctx_err w3 ctx = Some e) as ->.
  { unfold ctx_err in *. subst w3. simpl. by rewrite Hcx, Hck. }
  assert (requests w3 !! r = requests w1 !! r) as -> by (subst w3; simpl; by rewrite Hrq).
  rewrite Hr1. cbn [mbind option_bind req_URL].
  eexists. split; [done|]. split.
  - apply goto_lookup. subst w3. simpl. rewrite length_insert, Hth.
    subst w1. simpl. by rewrite length_insert.
  - simpl. by rewrite Hrs.
Qed.

Lemma DoScrape_select1_forced w t ctx r id ch l w' th' :
  threads w !! t = Some (TDoScrape ctx r (DS_select1 id ch)) →
  ¬ receiver_ready w ch →
  step l w = Some w' →
  threads w' !! t = Some th' →
  th' ≠ TDoScrape ctx r (DS_select1 id ch) →
  l = LDone t
  ∧ responses (coord w') = responses (coord w)
  ∧ ∃ rq e, requests w !! r = Some rq ∧ ctx_err w ctx = Some e
      ∧ th' = TDoScrape ctx r (DS_return
                (DS_err (MatchingClientNotFound (URL_String (req_URL rq)) e))).
Proof.
  intros Ht Hnr H Ht' Hne. destruct l; step_cases H; thread_lookup;
    try congruence; try done.
  - split; [done|]. split; [done|]. by eexists _, _.
  - exfalso. apply Hnr. unfold receiver_ready. eauto.
Qed.

Lemma DoScrape_select1_done_enabled w t ctx r id ch rq e :
  threads w !! t = Some (TDoScrape ctx r (DS_select1 id ch)) →
  requests w !! r = Some rq →
  ctx_err w ctx = Some e →
  step (LDone t) w
  = Some (goto t (TDoScrape ctx r (DS_return
            (DS_err (MatchingClientNotFound (URL_String (req_URL rq)) e)))) w).
Proof.
  intros Ht Hr He. rewrite (step_LDone_DoScrape _ _ _ _ _ Ht).
  cbn [DoScrape_done]. rewrite He. cbn [mbind option_bind]. by rewrite Hr.
Qed.

Lemma DoScrape_select2_done w t ctx r id respCh e :
  threads w !! t = Some (TDoScrape ctx r (DS_select2 id respCh)) →
  ctx_err w ctx = Some e →
  ∃ w', run [LDone t; LRun t] w = Some w'
        ∧ threads w' !! t
          = Some (TDoScrape ctx r (DS_return (DS_err (CtxErr e))))
        ∧ responses (coord w') !! id = None.
Proof.
  intros Ht He. pose proof (lookup_lt_Some _ _ _ Ht) as Hlt.
  cbn [run]. rewrite (step_LDone_DoScrape _ _ _ _ _ Ht).
  cbn [DoScrape_done]. rewrite He. cbn [mbind option_bind].
  set (w1 := goto t _ w).
  assert (threads w1 !! t
          = Some (TDoScrape ctx r (DS_deferred id (DS_err (CtxErr e))))) as Ht1
    by (by apply goto_lookup).
  rewrite (step_LRun_DoScrape _ _ _ _ _ Ht1). cbn [DoScrape_run mbind option_bind].
  eexists. split; [done|]. split.
  - apply goto_lookup. simpl. by rewrite length_insert.
  - simpl. apply lookup_delete_eq.
Qed.

Lemma after_handoff_step l w w' t ctx r pc th' :
  step l w = Some w' →
  threads w !! t = Some (TDoScrape ctx r pc) →
  after_handoff pc →
  threads w' !! t = Some th' →
  ∃ pc', th' = TDoScrape ctx r pc' ∧ after_handoff pc'.
Proof.
  intros H Ht Ha Ht'. destruct l; step_cases H; thread_lookup;
    simpl in *; try done; eauto.
  all: try (destruct pc; simpl in *; try done; eauto).
Qed.

Lemma DoScrape_handoff_step w t ctx r id ch s w' :
  threads w !! t = Some (TDoScrape ctx r (DS_select1 id ch)) →
  step (LRequest t s) w = Some w' →
  threads w' !! t = Some (TDoScrape ctx r (DS_getResponseChannel id)).
Proof.
  intros Ht H. step_cases H.
  rewrite list_lookup_insert_ne.
  - apply list_lookup_insert_eq. by eapply lookup_lt_Some.
  - intros ->. congruence.
Qed.

(** C3.  A [DoScrape] whose context is done: called with such a context it
    reaches, in three steps of its own, the return of the "matching client
    not found" error and the response table is what it was; blocked in the
    first select with the context done, the [ctx.Done()] case can be taken
    at once, and while no receiver is ready on the slot it is the only way
    the goroutine moves, again without touching the response table.  Once
    the request has been handed over the goroutine stays among the program
    points whose outcomes are a response or the context's own error, and
    from the second select a done context leads to the return of that error
    with the response slot removed. *)
Theorem DoScrape_context_done :
  ∀ (w : World) (t : nat) (ctx : ctxid) (r : ptr) (rq : Request)
    (e : ctx_error),
    threads w !! t = Some (TDoScrape ctx r DS_entry) →
    requests w !! r = Some rq →
    ctx_err w ctx = Some e →
    (∃ w', run [LRun t; LRun t; LDone t] w = Some w'
           ∧ threads w' !! t
             = Some (TDoScrape ctx r (DS_return
                 (DS_err (MatchingClientNotFound (URL_String (req_URL rq)) e))))
           ∧ responses (coord w') = responses (coord w))
    ∧ (∀ w1 id ch,
         threads w1 !! t = Some (TDoScrape ctx r (DS_select1 id ch)) →
         (∀ rq1 e1,
            requests w1 !! r = Some rq1 → ctx_err w1 ctx = Some e1 →
            step (LDone t) w1
            = Some (goto t (TDoScrape ctx r (DS_return
                (DS_err (MatchingClientNotFound (URL_String (req_URL rq1)) e1))))
                w1))
         ∧ (¬ receiver_ready w1 ch →
            ∀ l w2 th',
              step l w1 = Some w2 →
              threads w2 !! t = Some th' →
              th' ≠ TDoScrape ctx r (DS_select1 id ch) →
              l = LDone t
              ∧ responses (coord w2) = responses (coord w1)
              ∧ ∃ rq1 e1,
                  requests w1 !! r = Some rq1 ∧ ctx_err w1 ctx = Some e1
                  ∧ th' = TDoScrape ctx r (DS_return (DS_err
                      (MatchingClientNotFound (URL_String (req_URL rq1)) e1))))
         ∧ (∀ s w2, step (LRequest t s) w1 = Some w2 →
              threads w2 !! t
              = Some (TDoScrape ctx r (DS_getResponseChannel id))))
    ∧ (∀ l w1 w2 pc th',
         step l w1 = Some w2 →
         threads w1 !! t = Some (TDoScrape ctx r pc) →
         after_handoff pc →
         threads w2 !! t = Some th' →
         ∃ pc', th' = TDoScrape ctx r pc' ∧ after_handoff pc')
    ∧ (∀ w1 id respCh e1,
         threads w1 !! t = Some (TDoScrape ctx r (DS_select2 id respCh)) →
         ctx_err w1 ctx = Some e1 →
         ∃ w2, run [LDone t; LRun t] w1 = Some w2
               ∧ threads w2 !! t
                 = Some (TDoScrape ctx r (DS_return (DS_err (CtxErr e1))))
               ∧ responses (coord w2) !! id = None).
Proof.
  intros w t ctx r rq e Ht Hr He.
  split; [by apply DoScrape_done_at_entry|]. split; [|split].
  - intros w1 id ch Ht1. split; [|split].
    + intros rq1 e1. by apply (DoScrape_select1_done_enabled _ _ _ _ id ch).
    + intros Hnr l w2 th'. by apply DoScrape_select1_forced.
    + intros s w2. by apply (DoScrape_handoff_step _ _ _ _ _ ch).
  - intros l w1 w2 pc th'. apply after_handoff_step.
  - intros w1 id respCh e1. apply DoScrape_select2_done.
Qed.

(** ** [ScrapeResult] *)

Lemma strip_internal_stripped h : stripped (strip_internal h).
Proof.
  unfold stripped, strip_internal, Header_Del.
  change (MIME.CanonicalMIMEHeaderKey "Id") with "Id".
  change (MIME.CanonicalMIMEHeaderKey "X-Prometheus-Scrape-Timeout-Seconds")
    with "X-Prometheus-Scrape-Timeout-Seconds".
  split.
  - rewrite lookup_delete_ne by done. apply lookup_delete_eq.
  - apply lookup_delete_eq.
Qed.

Lemma strip_internal_fix h : stripped h → strip_internal h = h.
Proof.
  intros [H1 H2]. unfold strip_internal, Header_Del.
  change (MIME.CanonicalMIMEHeaderKey "Id") with "Id".
  change (MIME.CanonicalMIMEHeaderKey "X-Prometheus-Scrape-Timeout-Seconds")
    with "X-Prometheus-Scrape-Timeout-Seconds".
  rewrite (delete_id _ _ H1). by rewrite (delete_id _ _ H2).
Qed.

Lemma stripped_Get_Id h : stripped h → Header_Get "Id" h = "".
Proof.
  intros [H1 _]. unfold Header_Get.
  change (MIME.CanonicalMIMEHeaderKey "Id") with "Id". by rewrite H1.
Qed.

(** No step gives a stripped response its internal headers back. *)
Lemma step_resps_stripped l w w' p rs :
  step l w = Some w' →
  resps w !! p = Some rs → stripped (resp_Header rs) →
  resps w' !! p = Some rs.
Proof.
  intros H Hp Hs. destruct l; step_cases H; try done.
  destruct (decide (r = p)) as [->|Hne].
  - rewrite lookup_insert_eq. simplify_eq. f_equal.
    match goal with
    | |- mkResponse ?h _ = ?x =>
        change h with (strip_internal (resp_Header x));
        rewrite strip_internal_fix by done; by destruct x
    end.
  - by rewrite lookup_insert_ne.
Qed.

Lemma run_resps_stripped ls : ∀ w w' p rs,
  run ls w = Some w' →
  resps w !! p = Some rs → stripped (resp_Header rs) →
  resps w' !! p = Some rs.
Proof.
  induction ls as [|l ls IH]; intros w w' p rs H Hp Hs; simpl in H.
  - by simplify_eq.
  - destruct (step l w) as [w1|] eqn:E; simpl in H; [|done].
    eapply IH; [done| |done]. by eapply step_resps_stripped.
Qed.

Lemma ScrapeResult_entry_step w t r rs :
  threads w !! t = Some (TScrapeResult r SR_entry) →
  resps w !! r = Some rs →
  step (LRun t) w
  = Some (goto t (TScrapeResult r (SR_select_enter
            (Header_Get "Id" (resp_Header rs))
            (Add (clock w) (GetScrapeTimeout (resp_Header rs)))))
          (set_resps (<[r := mkResponse (strip_internal (resp_Header rs))
                             (resp_body rs)]> (resps w)) w)).
Proof.
  intros Ht Hr. rewrite (step_LRun_ScrapeResult _ _ _ _ Ht).
  cbn [ScrapeResult_run]. by rewrite Hr.
Qed.



Lemma ScrapeResult_timeout w t r id deadline ch :
  threads w !! t = Some (TScrapeResult r (SR_select id deadline ch)) →
  deadline ≤ clock w →
  ∃ w', run [LDone t; LRun t] w = Some w'
        ∧ threads w' !! t
          = Some (TScrapeResult r (SR_return (Some DeadlineExceeded)))
        ∧ responses (coord w') !! id = None
        ∧ resps w' = resps w.
Proof.
  intros Ht Hle. pose proof (lookup_lt_Some _ _ _ Ht) as Hlt.
  cbn [run]. rewrite (step_LDone_ScrapeResult _ _ _ _ Ht).
  cbn [ScrapeResult_done].
  destruct (deadline <=? clock w) eqn:E; [|apply Z.leb_gt in E; lia].
  cbn [mbind option_bind].
  set (w1 := goto t _ w).
  assert (threads w1 !! t = Some (TScrapeResult r (SR_timeout id))) as Ht1
    by (by apply goto_lookup).
  rewrite (step_LRun_ScrapeResult _ _ _ _ Ht1).
  cbn [ScrapeResult_run mbind option_bind].
  eexists. split; [done|]. split; [|split].
  - apply goto_lookup. simpl. by rewrite length_insert.
  - simpl. apply lookup_delete_eq.
  - done.
Qed.



(** C10.  The first step of [ScrapeResult] reads the identifier and the
    timeout from the headers as submitted and then deletes both internal
    headers from the submitted object itself; nothing that happens later
    puts them back: after any run the object is still the stripped one, in
    particular when the select times out, removes the slot and returns
    [context.DeadlineExceeded], a path that does not touch the object. *)
Theorem ScrapeResult_strips_in_place :
  ∀ (w : World) (t : nat) (r : ptr) (rs : Response),
    threads w !! t = Some (TScrapeResult r SR_entry) →
    resps w !! r = Some rs →
    ∃ w1,
      step (LRun t) w = Some w1
      ∧ threads w1 !! t
        = Some (TScrapeResult r (SR_select_enter
                  (Header_Get "Id" (resp_Header rs))
                  (clock w + GetScrapeTimeout (resp_Header rs))))
      ∧ resps w1 !! r
        = Some (mkResponse (strip_internal (resp_Header rs)) (resp_body rs))
      ∧ stripped (strip_internal (resp_Header rs))
      ∧ (∀ ls w2,
           run ls w1 = Some w2 →
           resps w2 !! r
           = Some (mkResponse (strip_internal (resp_Header rs)) (resp_body rs)))
      ∧ (∀ w2 id deadline ch,
           threads w2 !! t = Some (TScrapeResult r (SR_select id deadline ch)) →
           deadline ≤ clock w2 →
           ∃ w3, run [LDone t; LRun t] w2 = Some w3
                 ∧ threads w3 !! t
                   = Some (TScrapeResult r (SR_return (Some DeadlineExceeded)))
                 ∧ responses (coord w3) !! id = None
                 ∧ resps w3 = resps w2).
Proof.
  intros w t r rs Ht Hr. pose proof (lookup_lt_Some _ _ _ Ht) as Hlt.
  eexists. split; [by apply ScrapeResult_entry_step|].
  split; [by apply goto_lookup|].
  split; [apply lookup_insert_eq|].
  split; [apply strip_internal_stripped|]. split.
  - intros ls w2 Hrun. eapply run_resps_stripped; [done| |].
    + apply lookup_insert_eq.
    + apply strip_internal_stripped.
  - intros w2 id deadline ch. apply ScrapeResult_timeout.
Qed.

(** ** Responses on their way to the caller *)

Lemma step_resp_stripped l w w' p :
  step l w = Some w' → resp_stripped w p → resp_stripped w' p.
Proof.
  intros H (rs & Hp & Hs). exists rs. split; [|done].
  by eapply step_resps_stripped.
Qed.

Lemma is_entry_holds_nothing th p :
  is_entry th = true → ¬ holds_response th p.
Proof. destruct th as [?? []|? []|? []|[]|]; simpl; by intros ??. Qed.

Lemma responses_stripped_init w :
  Forall (λ th, is_entry th = true) (threads w) → responses_stripped w.
Proof.
  intros Hall t th p Ht Hh. exfalso.
  rewrite Forall_lookup in Hall.
  by eapply is_entry_holds_nothing; [eapply Hall|].
Qed.

Lemma responses_stripped_step l w w' :
  step l w = Some w' → responses_stripped w → responses_stripped w'.
Proof.
  intros H Inv t' th' p Ht' Hh.
  assert (∀ t th, threads w !! t = Some th → holds_response th p →
            resp_stripped w' p) as Hold.
  { intros t th Ht Hth. eapply step_resp_stripped; [done|]. by eapply Inv. }
  destruct l; step_cases H; thread_lookup; simpl in Hh;
    try done; subst;
    try match goal with
    | Ht : threads _ !! _ = Some _ |- _ =>
        solve [eapply Hold; [exact Ht | simpl; done]]
    end.
  - (* the first step of ScrapeResult *)
    eexists. split; [apply lookup_insert_eq|]. apply strip_internal_stripped.
  - by apply is_entry_holds_nothing in Hh.
Qed.

Lemma responses_stripped_run ls : ∀ w w',
  run ls w = Some w' → responses_stripped w → responses_stripped w'.
Proof.
  induction ls as [|l ls IH]; intros w w' H Inv; simpl in H.
  - by simplify_eq.
  - destruct (step l w) as [w1|] eqn:E; simpl in H; [|done].
    eapply IH; [done|]. by eapply responses_stripped_step.
Qed.

(** C7.  Starting from goroutines at the entry of their functions, whatever
    the run, a response that [DoScrape] has received from [ScrapeResult] --
    pending its deferred call or returned to its caller -- carries neither
    the [Id] header nor the timeout header. *)
Theorem DoScrape_response_stripped :
  ∀ (w0 : World) (ls : list Label) (w : World) (t : nat) (ctx : ctxid)
    (r p : ptr) (pc : DoScrape_pc),
    Forall (λ th, is_entry th = true) (threads w0) →
    run ls w0 = Some w →
    threads w !! t = Some (TDoScrape ctx r pc) →
    (∃ id, pc = DS_deferred id (DS_ok p)) ∨ pc = DS_return (DS_ok p) →
    ∃ rs, resps w !! p = Some rs
          ∧ resp_Header rs !! "Id" = None
          ∧ resp_Header rs !! "X-Prometheus-Scrape-Timeout-Seconds" = None
          ∧ Header_Get "Id" rs.(resp_Header) = "".
Proof.
  intros w0 ls w t ctx r p pc Hall Hrun Ht Hpc.
  pose proof (responses_stripped_run _ _ _ Hrun (responses_stripped_init _ Hall))
    as Inv.
  destruct (Inv t _ p Ht) as (rs & Hp & Hs).
  { destruct Hpc as [[id ->]| ->]; simpl; done. }
  exists rs. split; [done|]. destruct Hs as [H1 H2].
  split; [done|]. split; [done|]. by apply stripped_Get_Id.
Qed.

(** ** One [DoScrape] and one [WaitForScrapeInstruction] *)

Lemma Context_Err_mono now now' cx e :
  now ≤ now' → Context_Err now cx = Some e → Context_Err now' cx = Some e.
Proof.
  unfold Context_Err. intros Hle. destruct (ctx_cancelled cx); [done|].
  destruct (ctx_deadline cx) as [dl|]; [|done].
  destruct (dl <=? now) eqn:E1; [|done]. apply Z.leb_le in E1.
  destruct (dl <=? now') eqn:E2; [done|]. apply Z.leb_gt in E2. lia.
Qed.

Lemma step_ctx_err l w w' c e :
  step l w = Some w' → ctx_err w c = Some e → ctx_err w' c = Some e.
Proof.
  intros H He. unfold ctx_err in *.
  destruct l; step_cases H; try done.
  - (* the clock advances *)
    eapply Context_Err_mono; [|done]. apply Z.ltb_lt in Heqb. lia.
  - (* a live context is cancelled *)
    match goal with
    | |- context [<[?a := _]> _ !! ?b] => destruct (decide (a = b)) as [->|Hne]
    end.
    + congruence.
    + rewrite lookup_insert_ne by done.
      by match goal with H : contexts _ !! c = Some _ |- _ => rewrite H end.
Qed.

Lemma handoff_inv_step ctx r rq c0 pd l w w' :
  no_go l = true →
  step l w = Some w' →
  handoff_inv ctx r rq c0 pd w → handoff_inv ctx r rq c0 pd w'.
Proof.
  intros Hgo H (d & v & Hth & Hpid & Hreq & Hd & Hv & Hph).
  assert (∀ c, ctx_err w c ≠ None → ctx_err w' c ≠ None) as Hs.
  { intros c Hc. destruct (ctx_err w c) as [e|] eqn:E; [|done].
    by rewrite (step_ctx_err _ _ _ _ _ H E). }
  pose proof (Hs ctx) as Hs1. pose proof (Hs (req_ctx rq)) as Hs2. clear Hs.
  unfold handoff_inv, handoff_state.
  destruct l as [t|t|s t|s t|dd|c|th]; try discriminate; simpl in H;
    rewrite ?Hth in H.
  all: try (destruct t as [|[|t]]; simpl in H; try discriminate).
  all: try (destruct s as [|[|s]]; simpl in H; try discriminate).
  all: try (destruct d; simpl in H; try discriminate).
  all: try (destruct v; simpl in H; try discriminate).
  all: unfold_step; simpl in H;
    repeat (first
      [ progress simplify_option_eq
      | match goal with
        | H' : context [match ?x with _ => _ end] |- _ => destruct x eqn:?
        end ]);
    simpl in *.
  all: unfold ctx_err in *; simpl in *; rewrite ?Hth; simpl.
  all: try (eexists _, _; split; [reflexivity|]; simpl).
  all: first [ destruct Hreq as (sec & Hreq & Hid); simpl in Hid
             | destruct Hreq as [Hreq Hc0] ].
  all: try match type of Hph with _ = _ ∧ _ => destruct Hph as [-> ?] end.
  all: simplify_eq; simpl in *; rewrite ?lookup_insert_eq.
  all: try by (intuition (eauto; try congruence)).
  all: try by (repeat split; eauto; try congruence;
               try (by left); try (right; split; [done|congruence])).
Qed.

Lemma handoff_inv_init ctx r rq w :
  threads w = [TDoScrape ctx r DS_entry;
               TWait (URL_Hostname (req_URL rq)) W_entry] →
  requests w !! r = Some rq →
  handoff_inv ctx r rq (idCounter w) (pid w) w.
Proof. intros Hth Hr. exists DS_entry, W_entry. by repeat split. Qed.

Lemma handoff_inv_run ctx r rq c0 pd ls : ∀ w w',
  Forall (λ l, no_go l = true) ls →
  run ls w = Some w' →
  handoff_inv ctx r rq c0 pd w → handoff_inv ctx r rq c0 pd w'.
Proof.
  induction ls as [|l ls IH]; intros w w' Hall H Inv; simpl in H.
  - by simplify_eq.
  - apply Forall_cons in Hall as [Hl Hall].
    destruct (step l w) as [w1|] eqn:E; simpl in H; [|done].
    eapply IH; [done|done|]. by eapply handoff_inv_step.
Qed.

Lemma handoff_inv_returned ctx r rq c0 pd w p :
  handoff_inv ctx r rq c0 pd w →
  threads w !! 1%nat = Some (TWait (URL_Hostname (req_URL rq)) (W_return p)) →
  p = r
  ∧ ∃ sec pc,
      requests w !! r = Some (tag rq (fmt_id sec (wrap64 (c0 + 1)) pd))
      ∧ threads w !! 0%nat = Some (TDoScrape ctx r pc)
      ∧ after_handoff pc.
Proof.
  intros (d & v & Hth & Hpid & Hreq & Hd & Hv & Hph) Ht.
  rewrite Hth in Ht |- *. simpl in Ht. simplify_eq.
  destruct Hph as [-> Ha]. split; [done|].
  destruct d; simpl in Ha; try done;
    destruct Hreq as (sec & Hreq & _); eauto.
Qed.

Lemma thread_step_ctx_err l w w' c :
  thread_step l = true → step l w = Some w' → ctx_err w' c = ctx_err w c.
Proof.
  intros Hl H. unfold ctx_err.
  destruct l; try discriminate; step_cases H; done.
Qed.

Lemma handoff_progress ctx r rq c0 pd w :
  handoff_inv ctx r rq c0 pd w →
  ctx_err w ctx = None → ctx_err w (req_ctx rq) = None →
  (∀ p, threads w !! 1%nat
        ≠ Some (TWait (URL_Hostname (req_URL rq)) (W_return p))) →
  ∃ l w', thread_step l = true ∧ step l w = Some w'.
Proof.
  intros (d & v & Hth & Hpid & Hreq & Hd & Hv & Hph) Hc1 Hc2 Hnr.
  rewrite Hth in Hnr. simpl in Hnr.
  destruct d; simpl in *.
  - exists (LRun 0). simpl. rewrite Hth. simpl.
    destruct Hreq as [-> _]. simpl. eauto.
  - exists (LRun 0). simpl. rewrite Hth. simpl.
    destruct Hreq as (sec & -> & _). simpl.
    destruct (getRequestChannel _ _). eauto.
  - destruct v; simpl in *.
    + exists (LRun 1). simpl. rewrite Hth. simpl. eauto.
    + exists (LRun 1). simpl. rewrite Hth. simpl.
      destruct (getRequestChannel _ _). eauto.
    + exists (LRequest 0 1). simpl. rewrite Hth. simpl.
      assert (ch = ch0) as -> by congruence.
      rewrite decide_True by done. eauto.
    + by destruct Hph.
    + by destruct Hph.
  - exists (LRun 0). simpl. rewrite Hth. simpl.
    destruct (getResponseChannel _ _). eauto.
  - destruct v; simpl in *; try done.
    + destruct Hph as [[]|[_ ?]]. done.
    + destruct Hph as [-> _]. exists (LRun 1). simpl. rewrite Hth. simpl.
      destruct Hreq as (sec & -> & _). simpl. rewrite Hc2. eauto.
    + exfalso. by eapply Hnr.
  - destruct res; [done|]. done.
  - destruct res; [done|]. done.
Qed.

Lemma handoff_decrease ctx r rq c0 pd l w w' :
  handoff_inv ctx r rq c0 pd w →
  ctx_err w (req_ctx rq) = None →
  thread_step l = true →
  step l w = Some w' →
  (todo w' < todo w)%nat.
Proof.
  intros (d & v & Hth & Hpid & Hreq & Hd & Hv & Hph) Hc2 Hl H.
  unfold todo.
  destruct l as [t|t|s t|s t|dd|c|th]; try discriminate; simpl in H;
    rewrite ?Hth in H.
  all: try (destruct t as [|[|t]]; simpl in H; try discriminate).
  all: try (destruct s as [|[|s]]; simpl in H; try discriminate).
  all: try (destruct d; simpl in H; try discriminate).
  all: try (destruct v; simpl in H; try discriminate).
  all: unfold_step; simpl in H;
    repeat (first
      [ progress simplify_option_eq
      | match goal with
        | H' : context [match ?x with _ => _ end] |- _ => destruct x eqn:?
        end ]);
    simpl in *; rewrite ?Hth; simpl; try lia.
  all: first [ destruct Hreq as (sec & Hreq & Hid); simpl in Hid
             | destruct Hreq as [Hreq Hc0] ].
  all: try match type of Hph with _ = _ ∧ _ => destruct Hph as [-> ?] end.
  all: simplify_eq; simpl in *; congruence.
Qed.

Lemma thread_step_no_go l : thread_step l = true → no_go l = true.
Proof. by destruct l. Qed.

Lemma handoff_completes ctx r rq c0 pd n : ∀ w,
  (todo w ≤ n)%nat →
  handoff_inv ctx r rq c0 pd w →
  ctx_err w ctx = None → ctx_err w (req_ctx rq) = None →
  ∃ ls w', Forall (λ l, thread_step l = true) ls
           ∧ (length ls ≤ todo w)%nat
           ∧ run ls w = Some w'
           ∧ threads w' !! 1%nat
             = Some (TWait (URL_Hostname (req_URL rq)) (W_return r)).
Proof.
  induction n as [|n IH]; intros w Hn Inv Hc1 Hc2.
  - (* nothing left to do: the waiter has returned *)
    destruct Inv as (d & v & Hth & Hpid & Hreq & Hd & Hv & Hph).
    unfold todo in Hn. rewrite Hth in Hn. simpl in Hn.
    destruct v; simpl in Hn; try lia.
    destruct Hph as [-> _]. exists [], w.
    split; [constructor|]. split; [simpl; lia|]. split; [done|].
    by rewrite Hth.
  - assert ((∃ p, threads w !! 1%nat
               = Some (TWait (URL_Hostname (req_URL rq)) (W_return p)))
            ∨ ¬ (∃ p, threads w !! 1%nat
               = Some (TWait (URL_Hostname (req_URL rq)) (W_return p))))
      as [[p Hp]|Hnp].
    { destruct Inv as (d & v & Hth & _). rewrite Hth. simpl.
      destruct v; eauto; right; by intros [? ?]. }
    + destruct (handoff_inv_returned _ _ _ _ _ _ _ Inv Hp) as [-> _].
      exists [], w. repeat split; [constructor|simpl; lia|done].
    + destruct (handoff_progress _ _ _ _ _ _ Inv Hc1 Hc2) as (l & w1 & Hl & Hs).
      { intros p Hp. apply Hnp. eauto. }
      pose proof (handoff_decrease _ _ _ _ _ _ _ _ Inv Hc2 Hl Hs) as Hdec.
      destruct (IH w1) as (ls & w' & Hall & Hlen & Hrun & Hret).
      * lia.
      * eapply handoff_inv_step; [by apply thread_step_no_go|done|done].
      * by rewrite (thread_step_ctx_err _ _ _ _ Hl Hs).
      * by rewrite (thread_step_ctx_err _ _ _ _ Hl Hs).
      * exists (l :: ls), w'. split; [by constructor|].
        split; [simpl; lia|]. split; [|done]. simpl. by rewrite Hs.
Qed.

(** C1.  One [DoScrape(ctx, r)] and one [WaitForScrapeInstruction] for the
    host of [r], and nobody else.  In every world the pair can reach:
    if the waiter has returned, it returned [r] itself, and [r] is the
    submitted request with the identifier of this call -- second, the
    caller's counter plus one, pid -- added once to the [Id] header and
    nothing else changed, [DoScrape] being past the handoff; and while
    neither the caller's context nor the request's is done, the pair is not
    stuck before the waiter returns, every step of either goroutine brings
    them closer to the end, and at most [todo] such steps lead to the waiter
    returning [r]. *)
Theorem handoff_delivers :
  ∀ (w0 : World) (ctx : ctxid) (r : ptr) (rq : Request) (ls : list Label)
    (w : World),
    threads w0 = [TDoScrape ctx r DS_entry;
                  TWait (URL_Hostname (req_URL rq)) W_entry] →
    requests w0 !! r = Some rq →
    Forall (λ l, no_go l = true) ls →
    run ls w0 = Some w →
    (∀ p,
       threads w !! 1%nat
       = Some (TWait (URL_Hostname (req_URL rq)) (W_return p)) →
       p = r
       ∧ ∃ sec pc,
           requests w !! r
           = Some (tag rq (fmt_id sec (wrap64 (idCounter w0 + 1)) (pid w0)))
           ∧ threads w !! 0%nat = Some (TDoScrape ctx r pc)
           ∧ after_handoff pc)
    ∧ (ctx_err w ctx = None → ctx_err w (req_ctx rq) = None →
       ((∀ p, threads w !! 1%nat
              ≠ Some (TWait (URL_Hostname (req_URL rq)) (W_return p))) →
        ∃ l w', thread_step l = true ∧ step l w = Some w')
       ∧ (∀ l w', thread_step l = true → step l w = Some w' →
                  (todo w' < todo w)%nat)
       ∧ ∃ ls' w',
           Forall (λ l, thread_step l = true) ls'
           ∧ (length ls' ≤ todo w)%nat
           ∧ run ls' w = Some w'
           ∧ threads w' !! 1%nat
             = Some (TWait (URL_Hostname (req_URL rq)) (W_return r))).
Proof.
  intros w0 ctx r rq ls w Hth Hr Hall Hrun.
  pose proof (handoff_inv_run _ _ _ _ _ _ _ _ Hall Hrun
                (handoff_inv_init _ _ _ _ Hth Hr)) as Inv.
  split.
  - intros p. by apply handoff_inv_returned.
  - intros Hc1 Hc2. split; [|split].
    + by eapply handoff_progress.
    + intros l w' Hl Hs. by eapply handoff_decrease.
    + by eapply (handoff_completes _ _ _ _ _ (todo w)).
Qed.

(** ** Channels, tables and the registry over whole runs *)

Lemma step_req_url l w w' p rq :
  step l w = Some w' →
  requests w !! p = Some rq →
  ∃ rq', requests w' !! p = Some rq' ∧ req_URL rq' = req_URL rq.
Proof.
  intros H Hp. destruct l; step_cases H; eauto.
  destruct (decide (r = p)) as [->|Hne].
  - rewrite lookup_insert_eq. simplify_eq. eauto.
  - rewrite lookup_insert_ne by done. eauto.
Qed.

Lemma thread_chans_mono (own own' : owners) w w' th :
  own ⊆ own' →
  (∀ p rq, requests w !! p = Some rq →
           ∃ rq', requests w' !! p = Some rq' ∧ req_URL rq' = req_URL rq) →
  thread_chans own w th → thread_chans own' w' th.
Proof.
  intros Hsub Hurl.
  assert (∀ ch x, own !! ch = Some x → own' !! ch = Some x) as Hown
    by (intros; by eapply lookup_weaken).
  destruct th as [? r []|? []|? []|?|]; simpl; try done.
  - intros (rq & Hr & Ho). destruct (Hurl _ _ Hr) as (rq' & Hr' & Hu).
    exists rq'. rewrite Hu. eauto.
  - eauto.
  - eauto.
  - intros [Ho (rq & Hr & Hh)]. destruct (Hurl _ _ Hr) as (rq' & Hr' & Hu).
    split; [eauto|]. exists rq'. rewrite Hu. eauto.
  - intros (rq & Hr & Hh). destruct (Hurl _ _ Hr) as (rq' & Hr' & Hu).
    exists rq'. rewrite Hu. eauto.
  - eauto.
Qed.

Lemma chans_inv_step l w w' :
  step l w = Some w' → chans_inv w → chans_inv w'.
Proof.
  intros H (own & Hlt & Hw & Hr & Hth).
  pose proof (λ p rq, step_req_url l w w' p rq H) as Hurl.
  assert (own !! next_chan w = None) as Hfresh.
  { destruct (own !! next_chan w) as [x|] eqn:E; [|done].
    apply Hlt in E. lia. }
  assert (∀ own' : owners, own ⊆ own' →
            ∀ t th, threads w !! t = Some th → thread_chans own' w' th) as Hold.
  { intros own' Hsub t th Ht. eapply thread_chans_mono; eauto. }
  destruct l; step_cases H.
  all: first
    [ match goal with
      | Hn : waiting (coord ?w0) !! ?k = None |- _ =>
          exists (<[next_chan w0 := (true, k)]> own)
      end
    | match goal with
      | Hn : responses (coord ?w0) !! ?k = None |- _ =>
          exists (<[next_chan w0 := (false, k)]> own)
      end
    | exists own ].
  all: (split; [|split; [|split]]); simpl.
  all: try (intros zch zx Hx;
            first [ apply lookup_insert_Some in Hx as [[<- _]|[_ Hx]];
                    [lia | apply Hlt in Hx; lia]
                  | apply Hlt in Hx; lia ]).
  all: try (intros zk zch Hk;
            first [ by apply Hw | by apply Hr
                  | apply lookup_insert_Some in Hk as [[<- <-]|[_ Hk]];
                    [by rewrite lookup_insert_eq
                    | rewrite lookup_insert_ne;
                      [first [by apply Hw | by apply Hr]
                      | first [apply Hw in Hk | apply Hr in Hk];
                        apply Hlt in Hk; lia ] ]
                  | rewrite lookup_insert_ne;
                    [first [by apply Hw | by apply Hr]
                    | first [apply Hw in Hk | apply Hr in Hk];
                      apply Hlt in Hk; lia ]
                  | apply lookup_delete_Some in Hk as [_ Hk]; by apply Hr ]).
  all: intros zt zth Ht'; thread_lookup.
  all: try (eapply Hold; [|eassumption];
            first [done | by apply insert_subseteq]).
  all: simpl; try done.
  all: rewrite ?lookup_insert_eq; try done.
  all: try (by apply Hw); try (by apply Hr).
  all: try (eexists; split; [eassumption|];
            first [by apply Hw | by rewrite lookup_insert_eq]).
  all: repeat match goal with
       | Ht : threads _ !! _ = Some _ |- _ => apply Hth in Ht; simpl in Ht
       end.
  all: try (destruct_and?; done).
  - eauto.
  - destruct Heqo as (rq & Hrq & Ho). split; [done|].
    exists rq. split; [done|]. congruence.
  - by destruct zth as [?? []|? []|? []|[]|].
Qed.

Lemma chans_inv_init w : fresh_start w → chans_inv w.
Proof.
  intros (Hw & Hr & Hall). exists ∅. rewrite Hw, Hr.
  split; [by intros ?? ?%lookup_empty_Some|].
  split; [by intros ?? ?%lookup_empty_Some|].
  split; [by intros ?? ?%lookup_empty_Some|].
  intros t th Ht. rewrite Forall_lookup in Hall. specialize (Hall _ _ Ht).
  by destruct th as [?? []|? []|? []|[]|].
Qed.

Lemma chans_inv_run ls : ∀ w w',
  run ls w = Some w' → chans_inv w → chans_inv w'.
Proof.
  induction ls as [|l ls IH]; intros w w' H Inv; simpl in H.
  - by simplify_eq.
  - destruct (step l w) as [w1|] eqn:E; simpl in H; [|done].
    eapply IH; [done|]. by eapply chans_inv_step.
Qed.


Lemma chans_inv_holds w th t ch :
  chans_inv w → threads w !! t = Some th → holds_chan th ch →
  (ch < next_chan w)%nat.
Proof.
  intros (own & Hlt & _ & _ & Hth) Ht Hh. specialize (Hth _ _ Ht).
  destruct th as [?? []|? []|? []|?|]; simpl in *; try done; subst;
    try (by eapply Hlt).
  - destruct Hth as (rq & _ & Ho). by eapply Hlt.
  - destruct Hth as [Ho _]. by eapply Hlt.
Qed.

(** X1.  Starting from a fresh coordinator, whatever the run, a request in
    the hands of [WaitForScrapeInstruction(fqdn)] -- just received or
    returned -- is addressed to that host: its [URL.Hostname()] is [fqdn].
    Already before the handoff, a [DoScrape] and a waiter blocked on the
    same channel agree on the host. *)
Theorem request_reaches_its_host :
  ∀ (w0 : World) (ls : list Label) (w : World) (t : nat) (fqdn : string)
    (pc : Wait_pc) (p : ptr),
    fresh_start w0 →
    run ls w0 = Some w →
    threads w !! t = Some (TWait fqdn pc) →
    pc = W_return p ∨ (∃ ch, pc = W_select ch p) →
    (∃ rq, requests w !! p = Some rq ∧ URL_Hostname (req_URL rq) = fqdn)
    ∧ (∀ s ctx r id ch t' fqdn',
         threads w !! s = Some (TDoScrape ctx r (DS_select1 id ch)) →
         threads w !! t' = Some (TWait fqdn' (W_recv ch)) →
         ∃ rq, requests w !! r = Some rq ∧ URL_Hostname (req_URL rq) = fqdn').
Proof.
  intros w0 ls w t fqdn pc p Hinit Hrun Ht Hpc.
  destruct (chans_inv_run _ _ _ Hrun (chans_inv_init _ Hinit))
    as (own & Hlt & Hw & Hr & Hth).
  split.
  - specialize (Hth _ _ Ht). destruct Hpc as [->|[ch ->]]; simpl in Hth.
    + done.
    + by destruct Hth.
  - intros s ctx r id ch t' fqdn' Hs Ht'.
    apply Hth in Hs as (rq & Hrq & Ho). apply Hth in Ht'. simpl in Ht'.
    exists rq. split; [done|]. congruence.
Qed.

(** X2.  Starting from a fresh coordinator, whatever the run, a
    [ScrapeResult] and a [DoScrape] blocked on the same response channel
    carry the same identifier; the handoff between them is then possible
    and leaves the submitted response with that caller. *)
Theorem response_reaches_its_caller :
  ∀ (w0 : World) (ls : list Label) (w : World) (s r : nat) (p : ptr)
    (id1 id2 : string) (deadline : Time) (ch : chan) (ctx : ctxid) (rq : ptr),
    fresh_start w0 →
    run ls w0 = Some w →
    threads w !! s = Some (TScrapeResult p (SR_select id1 deadline ch)) →
    threads w !! r = Some (TDoScrape ctx rq (DS_select2 id2 ch)) →
    id1 = id2
    ∧ ∃ w', step (LResponse s r) w = Some w'
            ∧ threads w' !! r
              = Some (TDoScrape ctx rq (DS_deferred id1 (DS_ok p))).
Proof.
  intros w0 ls w s r p id1 id2 deadline ch ctx rq Hinit Hrun Hs Hr.
  destruct (chans_inv_run _ _ _ Hrun (chans_inv_init _ Hinit))
    as (own & _ & _ & _ & Hth).
  pose proof (Hth _ _ Hs) as H1. pose proof (Hth _ _ Hr) as H2. simpl in *.
  assert (id1 = id2) as <- by congruence. split; [done|].
  simpl. rewrite Hs, Hr. simpl. rewrite decide_True by done.
  eexists. split; [done|]. simpl.
  apply list_lookup_insert_eq. rewrite length_insert. by eapply lookup_lt_Some.
Qed.

(** X3.  Starting from a fresh coordinator, whatever the run, two targets
    never share a request channel, two identifiers never share a response
    channel, and no channel sits in both tables. *)
Theorem slots_are_distinct :
  ∀ (w0 : World) (ls : list Label) (w : World),
    fresh_start w0 →
    run ls w0 = Some w →
    (∀ k1 k2 ch, waiting (coord w) !! k1 = Some ch →
                 waiting (coord w) !! k2 = Some ch → k1 = k2)
    ∧ (∀ k1 k2 ch, responses (coord w) !! k1 = Some ch →
                   responses (coord w) !! k2 = Some ch → k1 = k2)
    ∧ (∀ k1 k2 ch, waiting (coord w) !! k1 = Some ch →
                   responses (coord w) !! k2 ≠ Some ch).
Proof.
  intros w0 ls w Hinit Hrun.
  destruct (chans_inv_run _ _ _ Hrun (chans_inv_init _ Hinit))
    as (own & _ & Hw & Hr & _).
  split; [|split].
  - intros k1 k2 ch H1%Hw H2%Hw. congruence.
  - intros k1 k2 ch H1%Hr H2%Hr. congruence.
  - intros k1 k2 ch H1%Hw H2%Hr. congruence.
Qed.

(** X4.  Starting from a fresh coordinator, whatever the run: when a
    response slot is removed and asked for again, [getResponseChannel]
    makes a new channel, which no goroutine holds and no table contains --
    a goroutine still blocked on the removed slot's channel is not connected
    to the new slot. *)
Theorem removed_slot_is_made_anew :
  ∀ (w0 : World) (ls : list Label) (w : World) (id : string),
    fresh_start w0 →
    run ls w0 = Some w →
    (getResponseChannel id (removeResponseChannel id w)).1 = next_chan w
    ∧ responses (coord (getResponseChannel id (removeResponseChannel id w)).2)
      !! id = Some (next_chan w)
    ∧ (∀ t th, threads w !! t = Some th → ¬ holds_chan th (next_chan w))
    ∧ (∀ k, waiting (coord w) !! k ≠ Some (next_chan w))
    ∧ (∀ k, responses (coord w) !! k ≠ Some (next_chan w)).
Proof.
  intros w0 ls w id Hinit Hrun.
  pose proof (chans_inv_run _ _ _ Hrun (chans_inv_init _ Hinit)) as Inv.
  unfold getResponseChannel.
  replace (responses (coord (removeResponseChannel id w)) !! id)
    with (@None chan) by (symmetry; apply removeResponseChannel_lookup).
  simpl. split; [done|]. split; [apply lookup_insert_eq|].
  split; [|split].
  - intros t th Ht Hh.
    pose proof (chans_inv_holds _ _ _ _ Inv Ht Hh). lia.
  - destruct Inv as (own & Hlt & Hw & _). intros k Hk%Hw%Hlt. lia.
  - destruct Inv as (own & Hlt & _ & Hr & _). intros k Hk%Hr%Hlt. lia.
Qed.

Lemma step_clock_mono l w w' : step l w = Some w' → clock w ≤ clock w'.
Proof.
  intros H. destruct l; step_cases H; lia.
Qed.

Lemma run_clock_mono ls : ∀ w w', run ls w = Some w' → clock w ≤ clock w'.
Proof.
  induction ls as [|l ls IH]; intros w w' H; simpl in H.
  - simplify_eq. lia.
  - destruct (step l w) as [w1|] eqn:E; simpl in H; [|done].
    apply step_clock_mono in E. apply IH in H. lia.
Qed.

Lemma step_contact_kept l w w' k t0 :
  step l w = Some w' →
  t0 ≤ clock w → clock w - t0 < registrationTimeout →
  (∃ ts, known (coord w) !! k = Some ts ∧ t0 ≤ ts) →
  ∃ ts, known (coord w') !! k = Some ts ∧ t0 ≤ ts.
Proof.
  intros H Hle Hlt (ts & Hk & Hts). destruct l; step_cases H; eauto.
  - (* another contact *)
    destruct (decide (fqdn = k)) as [->|Hne].
    + rewrite lookup_insert_eq. eauto.
    + rewrite lookup_insert_ne by done. eauto.
  - (* a round of gc *)
    exists ts. split; [|done]. apply map_lookup_filter_Some. split; [done|].
    simpl. unfold Before, Add. rewrite neg_registrationTimeout by lia.
    intros Hb%Is_true_true%Z.ltb_lt. lia.
Qed.

Lemma run_contact_kept ls : ∀ w w' k t0,
  run ls w = Some w' →
  t0 ≤ clock w → clock w' - t0 < registrationTimeout →
  (∃ ts, known (coord w) !! k = Some ts ∧ t0 ≤ ts) →
  ∃ ts, known (coord w') !! k = Some ts ∧ t0 ≤ ts.
Proof.
  induction ls as [|l ls IH]; intros w w' k t0 H Hle Hlt Hk; simpl in H.
  - by simplify_eq.
  - destruct (step l w) as [w1|] eqn:E; simpl in H; [|done].
    pose proof (step_clock_mono _ _ _ E). pose proof (run_clock_mono _ _ _ H).
    eapply (IH w1); [done|lia|done|].
    eapply step_contact_kept; [done|done|lia|done].
Qed.

(** X5.  A client that calls [WaitForScrapeInstruction] is listed by
    [KnownClients] in every world reached while less than
    [registrationTimeout] has passed since the call, whatever else happens
    in between (rounds of [gc] included): its entry stays, stamped no
    earlier than the call. *)
Theorem contact_stays_listed :
  ∀ (w : World) (t : nat) (fqdn : string) (ls : list Label) (w' : World),
    threads w !! t = Some (TWait fqdn W_entry) →
    run (LRun t :: ls) w = Some w' →
    clock w' - clock w < registrationTimeout →
    fqdn ∈ KnownClients w'
    ∧ ∃ ts, known (coord w') !! fqdn = Some ts ∧ clock w ≤ ts.
Proof.
  intros w t fqdn ls w' Ht Hrun Hlt.
  pose proof (run_clock_mono _ _ _ Hrun) as Hmono.
  cbn [run] in Hrun.
  replace (step (LRun t) w)
    with (Some (goto t (TWait fqdn W_getRequestChannel) (addKnownClient fqdn w)))
    in Hrun by (simpl; by rewrite Ht).
  cbn [mbind option_bind] in Hrun.
  destruct (run_contact_kept _ _ _ fqdn (clock w) Hrun) as (ts & Hk & Hts).
  - simpl. lia.
  - done.
  - exists (clock w). split; [|lia]. simpl. apply lookup_insert_eq.
  - split; [|eauto]. apply KnownClients_spec; [lia|].
    exists ts. split; [done|]. lia.
Qed.

(** X6.  For a registration timeout other than the least [int64]: a round
    of [gc] keeps exactly the entries that are not before the limit, each
    with its time; it does not change what [KnownClients] returns nor the
    two channel tables; a second round at the same time changes nothing
    more.  An entry exactly at the limit is kept by [gc] although
    [KnownClients] no longer lists it. *)
Theorem gc_round_spares_the_living :
  ∀ (w : World),
    registrationTimeout ≠ - 2 ^ 63 →
    (∀ k ts, known (coord (gc_round w)) !! k = Some ts ↔
             known (coord w) !! k = Some ts
             ∧ clock w - registrationTimeout ≤ ts)
    ∧ (∀ k, k ∈ KnownClients (gc_round w) ↔ k ∈ KnownClients w)
    ∧ (∀ k, known (coord w) !! k = Some (clock w - registrationTimeout) →
            known (coord (gc_round w)) !! k
            = Some (clock w - registrationTimeout)
            ∧ k ∉ KnownClients w)
    ∧ waiting (coord (gc_round w)) = waiting (coord w)
    ∧ responses (coord (gc_round w)) = responses (coord w)
    ∧ gc_round (gc_round w) = gc_round w.
Proof.
  intros w Hmin.
  assert (∀ k ts, known (coord (gc_round w)) !! k = Some ts ↔
             known (coord w) !! k = Some ts
             ∧ clock w - registrationTimeout ≤ ts) as Hspec.
  { intros k ts. rewrite gc_round_limit, (neg_registrationTimeout Hmin).
    split; intros [Hk Hle]; (split; [done|lia]). }
  split; [done|]. split; [|split; [|split; [done|split; [done|]]]].
  - intros k. rewrite !(KnownClients_spec _ _ Hmin).
    change (clock (gc_round w)) with (clock w).
    split.
    + intros (ts & Hk%Hspec & Hlt). exists ts. by destruct Hk.
    + intros (ts & Hk & Hlt). exists ts. split; [|done].
      apply Hspec. split; [done|lia].
  - intros k Hk. split.
    + apply Hspec. split; [done|lia].
    + rewrite (KnownClients_spec _ _ Hmin). intros (ts & Hk' & Hlt).
      rewrite Hk in Hk'. simplify_eq. lia.
  - unfold gc_round, set_coord. simpl. f_equal. f_equal.
    apply map_eq. intros k. apply option_eq. intros ts.
    rewrite !map_lookup_filter_Some. simpl. tauto.
Qed.

Lemma run_known_past ls : ∀ w w',
  run ls w = Some w' → known_past w → known_past w'.
Proof.
  induction ls as [|l ls IH]; intros w w' H Hp; simpl in H.
  - by simplify_eq.
  - destruct (step l w) as [w1|] eqn:E; simpl in H; [|done].
    eapply IH; [done|]. by eapply step_known_past.
Qed.

(** X7.  With a registration timeout of zero or less, other than the
    least [int64], [KnownClients] lists nobody, in every world reached from
    one whose contacts lie in the past. *)
Theorem no_timeout_nobody_listed :
  ∀ (w0 : World) (ls : list Label) (w : World),
    registrationTimeout ≠ - 2 ^ 63 →
    registrationTimeout ≤ 0 →
    known_past w0 →
    run ls w0 = Some w →
    KnownClients w = [].
Proof.
  intros w0 ls w Hmin Hrt Hp Hrun.
  pose proof (run_known_past _ _ _ Hrun Hp) as Hp'.
  destruct (KnownClients w) as [|k l] eqn:E; [done|].
  assert (k ∈ KnownClients w) as Hin by (rewrite E; left).
  apply (KnownClients_spec _ _ Hmin) in Hin as (ts & Hk & Hlt).
  specialize (Hp' _ _ Hk). lia.
Qed.

(** X13.  At the least [int64] the negation of the registration timeout
    wraps to that same number, and the limit lies [2^63] ns in the past:
    [KnownClients] lists every client whose last contact is less than
    [2^63] ns old, and a round of [gc] keeps every entry that is not older
    than that -- unlike any other timeout of zero or less, under which
    nobody is listed. *)
Theorem least_timeout_wraps :
  ∀ (w : World),
    registrationTimeout = - 2 ^ 63 →
    (∀ k, k ∈ KnownClients w ↔
          ∃ ts, known (coord w) !! k = Some ts ∧ clock w - ts < 2 ^ 63)
    ∧ (∀ k ts, known (coord (gc_round w)) !! k = Some ts ↔
               known (coord w) !! k = Some ts ∧ clock w - ts ≤ 2 ^ 63).
Proof.
  intros w Hrt. split.
  - intros k. rewrite KnownClients_limit, (neg_registrationTimeout_min Hrt).
    split; intros (ts & Hk & Hlt); exists ts; (split; [done|lia]).
  - intros k ts. rewrite gc_round_limit, (neg_registrationTimeout_min Hrt).
    split; intros [Hk Hle]; (split; [done|lia]).
Qed.

(** X8.  The first step of [DoScrape] appends the new identifier to the
    values of the request's [Id] header and touches no other header and no
    table: [Header.Get("Id")] of the tagged request is the new identifier
    when the request carried no [Id] value, and stays the first value it
    carried otherwise. *)
Theorem DoScrape_tags_by_appending :
  ∀ (w : World) (t : nat) (ctx : ctxid) (r : ptr) (rq : Request),
    threads w !! t = Some (TDoScrape ctx r DS_entry) →
    requests w !! r = Some rq →
    ∃ w1 id,
      step (LRun t) w = Some w1
      ∧ id = (genId w).1
      ∧ requests w1 !! r = Some (tag rq id)
      ∧ req_Header (tag rq id) !! "Id"
        = Some (default [] (req_Header rq !! "Id") ++ [id])%list
      ∧ (∀ k, k ≠ "Id" → req_Header (tag rq id) !! k = req_Header rq !! k)
      ∧ Header_Get "Id" (req_Header (tag rq id))
        = match req_Header rq !! "Id" with
          | Some (v :: _) => v
          | _ => id
          end
      ∧ coord w1 = coord w.
Proof.
  intros w t ctx r rq Ht Hr. eexists _, _.
  split.
  { rewrite (step_LRun_DoScrape _ _ _ _ _ Ht). cbn [DoScrape_run].
    rewrite Hr. cbn [mbind option_bind]. rewrite genId_eq. reflexivity. }
  split; [by rewrite genId_eq|].
  split; [apply lookup_insert_eq|].
  unfold tag, Header_Add, Header_Get. simpl req_Header.
  change (MIME.CanonicalMIMEHeaderKey "Id") with "Id".
  split; [apply lookup_insert_eq|].
  split; [intros k Hk; by apply lookup_insert_ne|].
  split; [|done].
  rewrite lookup_insert_eq.
  by destruct (req_Header rq !! "Id") as [[|v l]|].
Qed.

Lemma DoScrape_before_handoff_frame l w w' t ctx r pc :
  step l w = Some w' →
  threads w !! t = Some (TDoScrape ctx r pc) →
  before_handoff pc →
  l = LRun t ∨ l = LDone t ∨ (∃ s, l = LRequest t s) →
  responses (coord w') = responses (coord w)
  ∧ known (coord w') = known (coord w)
  ∧ waiting (coord w) ⊆ waiting (coord w').
Proof.
  intros H Ht Hb Hl. destruct Hl as [->|[->|[s ->]]]; step_cases H;
    simpl in Hb; try done;
    (split; [done|split; [done|]]); first [done | by apply insert_subseteq].
Qed.

(** X10.  The step by which a [DoScrape] arrives at its return is either
    the [ctx.Done()] branch of the first select -- it returns the "matching
    client not found" error and that step changes no table -- or its
    deferred call -- after it the response table holds no slot for its
    identifier, the two other tables being as before that step.  Over the
    call up to the handoff, none of the goroutine's own steps changes the
    response table or the registry, and to the request table they only add
    (the slot of the request's host, made on entering the first select even
    when the context is already done). *)
Theorem DoScrape_returns_without_slot :
  (∀ (l : Label) (w w' : World) (t : nat) (ctx : ctxid) (r : ptr)
     (res : DoScrape_result),
     step l w = Some w' →
     threads w' !! t = Some (TDoScrape ctx r (DS_return res)) →
     threads w !! t ≠ Some (TDoScrape ctx r (DS_return res)) →
     (l = LDone t
      ∧ (∃ id ch, threads w !! t = Some (TDoScrape ctx r (DS_select1 id ch)))
      ∧ (∃ url e, res = DS_err (MatchingClientNotFound url e))
      ∧ coord w' = coord w)
     ∨ (l = LRun t
        ∧ ∃ id, threads w !! t = Some (TDoScrape ctx r (DS_deferred id res))
                ∧ responses (coord w') !! id = None
                ∧ waiting (coord w') = waiting (coord w)
                ∧ known (coord w') = known (coord w)))
  ∧ (∀ (l : Label) (w w' : World) (t : nat) (ctx : ctxid) (r : ptr)
       (pc : DoScrape_pc),
       step l w = Some w' →
       threads w !! t = Some (TDoScrape ctx r pc) →
       before_handoff pc →
       l = LRun t ∨ l = LDone t ∨ (∃ s, l = LRequest t s) →
       responses (coord w') = responses (coord w)
       ∧ known (coord w') = known (coord w)
       ∧ waiting (coord w) ⊆ waiting (coord w')).
Proof.
  split.
  - intros l w w' t ctx r res H Ht Hn.
    destruct l; step_cases H; thread_lookup; try congruence; try done.
    + right. split; [done|]. eexists. split; [done|].
      split; [apply lookup_delete_eq|done].
    + left. split; [done|]. split; [eauto|]. split; [eauto|].
      by destruct (coord w).
  - intros l w w' t ctx r pc. apply DoScrape_before_handoff_frame.
Qed.

(** X9.  A result submitted while its caller waits is delivered: with the
    caller blocked in its second select on the slot of the identifier the
    result's [Id] header names, [ScrapeResult] reaches the handoff in two
    steps and returns nil, and the caller returns the submitted response
    object, stripped of the internal headers, its slot removed from the
    response table and the request table untouched. *)
Theorem result_meets_waiter :
  ∀ (w : World) (t s : nat) (r : ptr) (rs : Response) (ctx : ctxid)
    (rq : ptr) (id : string) (ch : chan),
    threads w !! t = Some (TScrapeResult r SR_entry) →
    resps w !! r = Some rs →
    Header_Get "Id" (resp_Header rs) = id →
    threads w !! s = Some (TDoScrape ctx rq (DS_select2 id ch)) →
    responses (coord w) !! id = Some ch →
    ∃ w', run [LRun t; LRun t; LResponse t s; LRun s] w = Some w'
          ∧ threads w' !! t = Some (TScrapeResult r (SR_return None))
          ∧ threads w' !! s = Some (TDoScrape ctx rq (DS_return (DS_ok r)))
          ∧ resps w' !! r
            = Some (mkResponse (strip_internal (resp_Header rs)) (resp_body rs))
          ∧ responses (coord w') = delete id (responses (coord w))
          ∧ waiting (coord w') = waiting (coord w).
Proof.
  intros w t s r rs ctx rq id ch Ht Hr Hid Hs Hch.
  assert (t ≠ s) as Hts by (intros ->; congruence).
  pose proof (lookup_lt_Some _ _ _ Ht) as Hlt.
  pose proof (lookup_lt_Some _ _ _ Hs) as Hls.
  cbn [run]. rewrite (ScrapeResult_entry_step _ _ _ _ Ht Hr).
  cbn [mbind option_bind]. rewrite Hid.
  set (dl := Add (clock w) (GetScrapeTimeout (resp_Header rs))).
  set (w1 := goto t _ _).
  assert (threads w1 !! t = Some (TScrapeResult r (SR_select_enter id dl)))
    as Ht1 by (by apply goto_lookup).
  rewrite (step_LRun_ScrapeResult _ _ _ _ Ht1).
  cbn [ScrapeResult_run].
  assert (getResponseChannel id w1 = (ch, w1)) as ->.
  { unfold getResponseChannel. subst w1. simpl. by rewrite Hch. }
  cbn [mbind option_bind].
  set (w2 := goto t _ w1).
  assert (threads w2 !! t = Some (TScrapeResult r (SR_select id dl ch))) as Ht2.
  { apply goto_lookup. subst w1. simpl. by rewrite length_insert. }
  assert (threads w2 !! s = Some (TDoScrape ctx rq (DS_select2 id ch))) as Hs2.
  { subst w2 w1. simpl. by rewrite !list_lookup_insert_ne. }
  assert (step (LResponse t s) w2
          = Some (goto s (TDoScrape ctx rq (DS_deferred id (DS_ok r)))
                    (goto t (TScrapeResult r (SR_return None)) w2))) as ->.
  { unfold step. rewrite Ht2. cbn [mbind option_bind].
    rewrite Hs2. cbn [mbind option_bind]. by rewrite decide_True. }
  cbn [mbind option_bind].
  set (w3 := goto s _ _).
  assert (threads w3 !! s
          = Some (TDoScrape ctx rq (DS_deferred id (DS_ok r)))) as Hs3.
  { apply goto_lookup. subst w2 w1. simpl. by rewrite !length_insert. }
  rewrite (step_LRun_DoScrape _ _ _ _ _ Hs3).
  cbn [DoScrape_run mbind option_bind].
  eexists. split; [done|]. split; [|split; [|split; [|split]]].
  - simpl. rewrite list_lookup_insert_ne by done.
    rewrite list_lookup_insert_ne by done.
    apply list_lookup_insert_eq. by rewrite !length_insert.
  - apply goto_lookup. subst w3 w2 w1. simpl. by rewrite !length_insert.
  - simpl. apply lookup_insert_eq.
  - done.
  - done.
Qed.

(** X11.  A response slot leaves the table only by [removeResponseChannel]
    for its own identifier, called from a [DoScrape]'s deferred call or from
    a [ScrapeResult]'s timeout branch; no step replaces it by another
    channel. *)
Theorem response_slot_removed_only_by_its_users :
  ∀ (l : Label) (w w' : World) (id : string) (ch : chan),
    step l w = Some w' →
    responses (coord w) !! id = Some ch →
    responses (coord w') !! id ≠ Some ch →
    responses (coord w') !! id = None
    ∧ ∃ t, l = LRun t
           ∧ ((∃ ctx r res,
                 threads w !! t = Some (TDoScrape ctx r (DS_deferred id res)))
              ∨ (∃ r, threads w !! t = Some (TScrapeResult r (SR_timeout id)))).
Proof.
  intros l w w' id ch H Hid Hn. destruct l; step_cases H; try congruence.
  all: match goal with
       | |- context [<[?i := _]> _ !! _] =>
           destruct (decide (i = id)) as [->|Hne];
           [congruence | rewrite lookup_insert_ne in Hn by done; congruence]
       | |- context [delete ?i _ !! _] =>
           destruct (decide (i = id)) as [->|Hne];
           [split; [apply lookup_delete_eq|]; eauto 8
           | rewrite lookup_delete_ne in Hn by done; congruence]
       end.
Qed.

(** X12.  An entry of the registry gets a new time only in the first step
    of a [WaitForScrapeInstruction] for that client, and the time is the
    clock's reading at that step. *)
Theorem registry_written_only_on_contact :
  ∀ (l : Label) (w w' : World) (k : string) (ts : Time),
    step l w = Some w' →
    known (coord w') !! k = Some ts →
    known (coord w) !! k ≠ Some ts →
    ts = clock w
    ∧ ∃ t, l = LRun t ∧ threads w !! t = Some (TWait k W_entry).
Proof.
  intros l w w' k ts H Hk Hn. destruct l; step_cases H; try congruence.
  - apply lookup_insert_Some in Hk as [[<- <-]|[_ Hk]]; [eauto|congruence].
  - apply map_lookup_filter_Some in Hk as [Hk _]. congruence.
Qed.

End Coordinator.

(** * The properties at concrete worlds *)

(** Two runs of the process with pid 1, each with a fresh counter, the
    second started 800 ns after the first: their first identifiers are the
    same text. *)
Lemma genId_restart_collision :
  let run1 := mkWorld NewCoordinator 0%nat 0 (1700000000 * Second + 100) 1 ∅ ∅ ∅ [] in
  let run2 := mkWorld NewCoordinator 0%nat 0 (1700000000 * Second + 900) 1 ∅ ∅ ∅ [] in
  idCounter run1 = 0 ∧ idCounter run2 = 0
  ∧ clock run1 ≠ clock run2
  ∧ (genId run1).1 = "1700000000-1-1"
  ∧ (genId run2).1 = (genId run1).1.
Proof. repeat split; try reflexivity. intros H. discriminate H. Qed.

Lemma genId_unique_within_process_witness :
  Z.of_nat (length [1700000000 * Second; 1700000000 * Second;
                    1700000001 * Second]) ≤ 2 ^ 64
  ∧ NoDup (genIds [1700000000 * Second; 1700000000 * Second;
                   1700000001 * Second] ex_pair).
Proof.
  split; [vm_compute; discriminate|].
  apply (genId_unique_within_process
           [1700000000 * Second; 1700000000 * Second; 1700000001 * Second]
           ex_pair).
  vm_compute; discriminate.
Defined.

Lemma handoff_delivers_witness :
  let w := default ex_pair (run (5 * Minute) ex_timeout ex_handoff ex_pair) in
  run (5 * Minute) ex_timeout ex_handoff ex_pair = Some w
  ∧ threads w !! 1%nat = Some (TWait "node1" (W_return 0%nat))
  ∧ 0%nat = 0%nat
  ∧ ∃ sec pc,
      requests w !! 0%nat
      = Some (tag ex_rq (fmt_id sec (wrap64 (idCounter ex_pair + 1)) (pid ex_pair)))
      ∧ threads w !! 0%nat = Some (TDoScrape 7%nat 0%nat pc)
      ∧ after_handoff pc.
Proof.
  intros w.
  assert (run (5 * Minute) ex_timeout ex_handoff ex_pair = Some w) as Hrun
    by (vm_compute; reflexivity).
  assert (threads w !! 1%nat = Some (TWait "node1" (W_return 0%nat))) as Hret
    by (vm_compute; reflexivity).
  split; [exact Hrun|]. split; [exact Hret|].
  destruct (handoff_delivers (5 * Minute) ex_timeout ex_pair 7%nat 0%nat ex_rq
              ex_handoff w eq_refl eq_refl
              ltac:(repeat constructor) Hrun) as [Hsafe _].
  exact (Hsafe 0%nat Hret).
Defined.

Lemma WaitForScrapeInstruction_skips_done_witness :
  let w := ex_world [TWait "node1" (W_select 0%nat 0%nat)] true in
  threads w !! 0%nat = Some (TWait "node1" (W_select 0%nat 0%nat))
  ∧ requests w !! 0%nat = Some ex_rq
  ∧ ctx_err w (req_ctx ex_rq) ≠ None
  ∧ step (5 * Minute) ex_timeout (LRun 0%nat) w
    = Some (goto 0%nat (TWait "node1" (W_recv 0%nat)) w).
Proof.
  intros w.
  assert (ctx_err w (req_ctx ex_rq) ≠ None) as Hdone
    by (vm_compute; discriminate).
  split; [reflexivity|]. split; [reflexivity|]. split; [exact Hdone|].
  destruct (WaitForScrapeInstruction_skips_done (5 * Minute) ex_timeout
              w 0%nat "node1" 0%nat 0%nat ex_rq eq_refl eq_refl)
    as (_ & Hdiscard & _).
  exact (Hdiscard Hdone).
Defined.

Lemma DoScrape_context_done_witness :
  let w := ex_world [TDoScrape 7%nat 0%nat DS_entry] true in
  threads w !! 0%nat = Some (TDoScrape 7%nat 0%nat DS_entry)
  ∧ requests w !! 0%nat = Some ex_rq
  ∧ ctx_err w 7%nat = Some Canceled
  ∧ ∃ w', run (5 * Minute) ex_timeout [LRun 0%nat; LRun 0%nat; LDone 0%nat] w
          = Some w'
          ∧ threads w' !! 0%nat
            = Some (TDoScrape 7%nat 0%nat (DS_return (DS_err
                (MatchingClientNotFound (URL_String (req_URL ex_rq)) Canceled))))
          ∧ responses (coord w') = responses (coord w).
Proof.
  intros w.
  split; [reflexivity|]. split; [reflexivity|]. split; [reflexivity|].
  destruct (DoScrape_context_done (5 * Minute) ex_timeout
              w 0%nat 7%nat 0%nat ex_rq Canceled eq_refl eq_refl eq_refl)
    as (Hentry & _).
  exact Hentry.
Defined.


Lemma DoScrape_response_stripped_witness :
  let w := default ex_trio (run (5 * Minute) ex_timeout ex_round_trip ex_trio) in
  Forall (λ th, is_entry th = true) (threads ex_trio)
  ∧ run (5 * Minute) ex_timeout ex_round_trip ex_trio = Some w
  ∧ threads w !! 0%nat = Some (TDoScrape 7%nat 0%nat (DS_return (DS_ok 0%nat)))
  ∧ ∃ rs, resps w !! 0%nat = Some rs
          ∧ resp_Header rs !! "Id" = None
          ∧ resp_Header rs !! "X-Prometheus-Scrape-Timeout-Seconds" = None
          ∧ Header_Get "Id" rs.(resp_Header) = "".
Proof.
  intros w.
  assert (Forall (λ th, is_entry th = true) (threads ex_trio)) as Hall
    by (repeat constructor).
  assert (run (5 * Minute) ex_timeout ex_round_trip ex_trio = Some w) as Hrun
    by (vm_compute; reflexivity).
  assert (threads w !! 0%nat
          = Some (TDoScrape 7%nat 0%nat (DS_return (DS_ok 0%nat)))) as Hret
    by (vm_compute; reflexivity).
  split; [exact Hall|]. split; [exact Hrun|]. split; [exact Hret|].
  exact (DoScrape_response_stripped (5 * Minute) ex_timeout ex_trio
           ex_round_trip w 0%nat 7%nat 0%nat 0%nat (DS_return (DS_ok 0%nat))
           Hall Hrun Hret (or_intror eq_refl)).
Defined.


Lemma KnownClients_pure_read_witness :
  let w := ex_registry in
  5 * Minute ≠ - 2 ^ 63
  ∧ threads w !! 0%nat = Some (TKnownClients None)
  ∧ KnownClients (5 * Minute) w = ["fresh"]
  ∧ ∃ w', step (5 * Minute) ex_timeout (LRun 0%nat) w = Some w'
          ∧ threads w'
            = <[0%nat := TKnownClients (Some (KnownClients (5 * Minute) w))]>
                (threads w)
          ∧ NoDup (KnownClients (5 * Minute) w)
          ∧ coord w' = coord w.
Proof.
  intros w.
  assert (5 * Minute ≠ - 2 ^ 63) as Hmin by (vm_compute; discriminate).
  assert (threads w !! 0%nat = Some (TKnownClients None)) as Ht
    by reflexivity.
  split; [exact Hmin|]. split; [exact Ht|].
  split; [vm_compute; reflexivity|].
  destruct (proj1 (KnownClients_pure_read (5 * Minute) ex_timeout Hmin)
              w 0%nat Ht) as (w' & H0 & H1 & _ & H3 & H4 & _).
  exists w'. exact (conj H0 (conj H1 (conj H3 H4))).
Defined.

Lemma ScrapeResult_strips_in_place_witness :
  let w := ex_world [TScrapeResult 0%nat SR_entry] false in
  threads w !! 0%nat = Some (TScrapeResult 0%nat SR_entry)
  ∧ resps w !! 0%nat = Some ex_resp
  ∧ strip_internal (resp_Header ex_resp) = {[ "Content-Type" := ["text/plain"] ]}
  ∧ ∃ w1,
      step (5 * Minute) ex_timeout (LRun 0%nat) w = Some w1
      ∧ resps w1 !! 0%nat
        = Some (mkResponse (strip_internal (resp_Header ex_resp))
                  (resp_body ex_resp))
      ∧ stripped (strip_internal (resp_Header ex_resp)).
Proof.
  intros w.
  split; [reflexivity|]. split; [reflexivity|].
  split; [vm_compute; reflexivity|].
  destruct (ScrapeResult_strips_in_place (5 * Minute) ex_timeout
              w 0%nat 0%nat ex_resp eq_refl eq_refl)
    as (w1 & Hs & _ & Hr & Hst & _).
  exists w1. exact (conj Hs (conj Hr Hst)).
Defined.

Lemma request_reaches_its_host_witness :
  let w := default ex_pair (run (5 * Minute) ex_timeout ex_handoff ex_pair) in
  fresh_start ex_pair
  ∧ run (5 * Minute) ex_timeout ex_handoff ex_pair = Some w
  ∧ threads w !! 1%nat = Some (TWait "node1" (W_return 0%nat))
  ∧ ∃ rq, requests w !! 0%nat = Some rq ∧ URL_Hostname (req_URL rq) = "node1".
Proof.
  intros w.
  assert (fresh_start ex_pair) as Hfresh
    by (split; [reflexivity|]; split; [reflexivity|]; repeat constructor).
  assert (run (5 * Minute) ex_timeout ex_handoff ex_pair = Some w) as Hrun
    by (vm_compute; reflexivity).
  assert (threads w !! 1%nat = Some (TWait "node1" (W_return 0%nat))) as Ht
    by (vm_compute; reflexivity).
  split; [exact Hfresh|]. split; [exact Hrun|]. split; [exact Ht|].
  exact (proj1 (request_reaches_its_host (5 * Minute) ex_timeout ex_pair
                  ex_handoff w 1%nat "node1" (W_return 0%nat) 0%nat
                  Hfresh Hrun Ht (or_introl eq_refl))).
Defined.

Lemma response_reaches_its_caller_witness :
  let ls := (ex_handoff ++ [LRun 0%nat; LRun 2%nat; LRun 2%nat])%list in
  let w := default ex_trio (run (5 * Minute) ex_timeout ls ex_trio) in
  fresh_start ex_trio
  ∧ run (5 * Minute) ex_timeout ls ex_trio = Some w
  ∧ threads w !! 2%nat
    = Some (TScrapeResult 0%nat
              (SR_select "1700000000-1-4242" (1700000010 * Second) 1%nat))
  ∧ threads w !! 0%nat
    = Some (TDoScrape 7%nat 0%nat (DS_select2 "1700000000-1-4242" 1%nat))
  ∧ ∃ w', step (5 * Minute) ex_timeout (LResponse 2%nat 0%nat) w = Some w'
          ∧ threads w' !! 0%nat
            = Some (TDoScrape 7%nat 0%nat
                      (DS_deferred "1700000000-1-4242" (DS_ok 0%nat))).
Proof.
  intros ls w.
  assert (fresh_start ex_trio) as Hfresh
    by (split; [reflexivity|]; split; [reflexivity|]; repeat constructor).
  assert (run (5 * Minute) ex_timeout ls ex_trio = Some w) as Hrun
    by (vm_compute; reflexivity).
  assert (threads w !! 2%nat
          = Some (TScrapeResult 0%nat
                    (SR_select "1700000000-1-4242" (1700000010 * Second) 1%nat)))
    as Hs by (vm_compute; reflexivity).
  assert (threads w !! 0%nat
          = Some (TDoScrape 7%nat 0%nat (DS_select2 "1700000000-1-4242" 1%nat)))
    as Hr by (vm_compute; reflexivity).
  split; [exact Hfresh|]. split; [exact Hrun|]. split; [exact Hs|].
  split; [exact Hr|].
  exact (proj2 (response_reaches_its_caller (5 * Minute) ex_timeout ex_trio
                  ls w 2%nat 0%nat 0%nat _ _ _ _ 7%nat 0%nat
                  Hfresh Hrun Hs Hr)).
Defined.

Lemma slots_are_distinct_witness :
  let ls := (ex_handoff ++ [LRun 0%nat; LRun 2%nat; LRun 2%nat])%list in
  let w := default ex_trio (run (5 * Minute) ex_timeout ls ex_trio) in
  fresh_start ex_trio
  ∧ run (5 * Minute) ex_timeout ls ex_trio = Some w
  ∧ waiting (coord w) !! "node1" = Some 0%nat
  ∧ responses (coord w) !! "1700000000-1-4242" = Some 1%nat
  ∧ responses (coord w) !! "1700000000-1-4242" ≠ Some 0%nat.
Proof.
  intros ls w.
  assert (fresh_start ex_trio) as Hfresh
    by (split; [reflexivity|]; split; [reflexivity|]; repeat constructor).
  assert (run (5 * Minute) ex_timeout ls ex_trio = Some w) as Hrun
    by (vm_compute; reflexivity).
  assert (waiting (coord w) !! "node1" = Some 0%nat) as Hw
    by (vm_compute; reflexivity).
  split; [exact Hfresh|]. split; [exact Hrun|]. split; [exact Hw|].
  split; [vm_compute; reflexivity|].
  exact (proj2 (proj2 (slots_are_distinct (5 * Minute) ex_timeout ex_trio
                         ls w Hfresh Hrun))
           "node1" "1700000000-1-4242" 0%nat Hw).
Defined.

Lemma removed_slot_is_made_anew_witness :
  let ls := (ex_handoff ++ [LRun 0%nat; LRun 2%nat; LRun 2%nat])%list in
  let w := default ex_trio (run (5 * Minute) ex_timeout ls ex_trio) in
  let id := "1700000000-1-4242" in
  fresh_start ex_trio
  ∧ run (5 * Minute) ex_timeout ls ex_trio = Some w
  ∧ responses (coord w) !! id = Some 1%nat
  ∧ next_chan w = 2%nat
  ∧ (getResponseChannel id (removeResponseChannel id w)).1 = next_chan w.
Proof.
  intros ls w id.
  assert (fresh_start ex_trio) as Hfresh
    by (split; [reflexivity|]; split; [reflexivity|]; repeat constructor).
  assert (run (5 * Minute) ex_timeout ls ex_trio = Some w) as Hrun
    by (vm_compute; reflexivity).
  split; [exact Hfresh|]. split; [exact Hrun|].
  split; [vm_compute; reflexivity|]. split; [vm_compute; reflexivity|].
  exact (proj1 (removed_slot_is_made_anew (5 * Minute) ex_timeout ex_trio
                  ls w id Hfresh Hrun)).
Defined.

Lemma contact_stays_listed_witness :
  let w := ex_world [TWait "node1" W_entry] false in
  let ls := [LTick (4 * Minute); LRun 0%nat; LTick (59 * Second)] in
  let w' := default w (run (5 * Minute) ex_timeout (LRun 0%nat :: ls) w) in
  threads w !! 0%nat = Some (TWait "node1" W_entry)
  ∧ run (5 * Minute) ex_timeout (LRun 0%nat :: ls) w = Some w'
  ∧ clock w' - clock w < 5 * Minute
  ∧ "node1" ∈ KnownClients (5 * Minute) w'.
Proof.
  intros w ls w'.
  assert (run (5 * Minute) ex_timeout (LRun 0%nat :: ls) w = Some w') as Hrun
    by (vm_compute; reflexivity).
  assert (clock w' - clock w < 5 * Minute) as Hlt by (vm_compute; reflexivity).
  split; [reflexivity|]. split; [exact Hrun|]. split; [exact Hlt|].
  exact (proj1 (contact_stays_listed (5 * Minute) ex_timeout w 0%nat "node1"
                  ls w' eq_refl Hrun Hlt)).
Defined.

Lemma no_timeout_nobody_listed_witness :
  let w := default ex_registry
             (run 0 ex_timeout [LTick Second] ex_registry) in
  0 ≠ - 2 ^ 63
  ∧ 0 ≤ 0
  ∧ known_past ex_registry
  ∧ run 0 ex_timeout [LTick Second] ex_registry = Some w
  ∧ known (coord w) !! "fresh" = Some (1700000000 * Second - Minute)
  ∧ KnownClients 0 w = [].
Proof.
  intros w.
  assert (known_past ex_registry) as Hp.
  { intros k ts H. simpl in H.
    apply lookup_insert_Some in H as [[_ <-]|[_ H]].
    - vm_compute. discriminate.
    - apply lookup_singleton_Some in H as [_ <-]. vm_compute. discriminate. }
  assert (run 0 ex_timeout [LTick Second] ex_registry = Some w)
    as Hrun by (vm_compute; reflexivity).
  assert (0 ≠ - 2 ^ 63) as Hmin by (vm_compute; discriminate).
  split; [exact Hmin|].
  split; [reflexivity|]. split; [exact Hp|]. split; [exact Hrun|].
  split; [vm_compute; reflexivity|].
  exact (no_timeout_nobody_listed 0 ex_timeout ex_registry
           [LTick Second] w Hmin (Z.le_refl 0) Hp Hrun).
Defined.

Lemma gc_round_spares_the_living_witness :
  let w := ex_registry in
  5 * Minute ≠ - 2 ^ 63
  ∧ known (coord (gc_round (5 * Minute) w)) !! "fresh"
    = Some (1700000000 * Second - Minute)
  ∧ known (coord (gc_round (5 * Minute) w)) !! "stale" = None
  ∧ (∀ k, k ∈ KnownClients (5 * Minute) (gc_round (5 * Minute) w)
          ↔ k ∈ KnownClients (5 * Minute) w)
  ∧ gc_round (5 * Minute) (gc_round (5 * Minute) w) = gc_round (5 * Minute) w.
Proof.
  intros w.
  assert (5 * Minute ≠ - 2 ^ 63) as Hmin by (vm_compute; discriminate).
  split; [exact Hmin|].
  split; [vm_compute; reflexivity|]. split; [vm_compute; reflexivity|].
  destruct (gc_round_spares_the_living (5 * Minute) w Hmin)
    as (_ & H2 & _ & _ & _ & H6).
  exact (conj H2 H6).
Defined.

Lemma least_timeout_wraps_witness :
  let w := ex_registry in
  (- 2 ^ 63 : Duration) = - 2 ^ 63
  ∧ (∀ k, k ∈ KnownClients (- 2 ^ 63) w ↔
          ∃ ts, known (coord w) !! k = Some ts ∧ clock w - ts < 2 ^ 63)
  ∧ "stale" ∈ KnownClients (- 2 ^ 63) w
  ∧ known (coord (gc_round (- 2 ^ 63) w)) = known (coord w).
Proof.
  intros w.
  destruct (least_timeout_wraps (- 2 ^ 63) w eq_refl) as [H1 H2].
  split; [reflexivity|]. split; [exact H1|]. split.
  - apply H1. exists (1700000000 * Second - 10 * Minute).
    split; [reflexivity|]. vm_compute. reflexivity.
  - vm_compute. reflexivity.
Defined.

Lemma DoScrape_tags_by_appending_witness :
  threads ex_pair !! 0%nat = Some (TDoScrape 7%nat 0%nat DS_entry)
  ∧ requests ex_pair !! 0%nat = Some ex_rq
  ∧ (genId ex_pair).1 = "1700000000-1-4242"
  ∧ ∃ w1 id,
      step (5 * Minute) ex_timeout (LRun 0%nat) ex_pair = Some w1
      ∧ id = (genId ex_pair).1
      ∧ requests w1 !! 0%nat = Some (tag ex_rq id)
      ∧ Header_Get "Id" (req_Header (tag ex_rq id))
        = match req_Header ex_rq !! "Id" with
          | Some (v :: _) => v
          | _ => id
          end.
Proof.
  split; [reflexivity|]. split; [reflexivity|].
  split; [vm_compute; reflexivity|].
  destruct (DoScrape_tags_by_appending (5 * Minute) ex_timeout ex_pair
              0%nat 7%nat 0%nat ex_rq eq_refl eq_refl)
    as (w1 & id & Hs & Hid & Hr & _ & _ & Hg & _).
  exists w1, id. exact (conj Hs (conj Hid (conj Hr Hg))).
Defined.

Lemma result_meets_waiter_witness :
  let ls := (ex_handoff ++ [LRun 0%nat])%list in
  let w := default ex_trio (run (5 * Minute) ex_timeout ls ex_trio) in
  let id := "1700000000-1-4242" in
  threads w !! 2%nat = Some (TScrapeResult 0%nat SR_entry)
  ∧ resps w !! 0%nat = Some ex_resp
  ∧ Header_Get "Id" (resp_Header ex_resp) = id
  ∧ threads w !! 0%nat = Some (TDoScrape 7%nat 0%nat (DS_select2 id 1%nat))
  ∧ responses (coord w) !! id = Some 1%nat
  ∧ ∃ w', run (5 * Minute) ex_timeout
            [LRun 2%nat; LRun 2%nat; LResponse 2%nat 0%nat; LRun 0%nat] w
          = Some w'
          ∧ threads w' !! 2%nat = Some (TScrapeResult 0%nat (SR_return None))
          ∧ threads w' !! 0%nat
            = Some (TDoScrape 7%nat 0%nat (DS_return (DS_ok 0%nat)))
          ∧ resps w' !! 0%nat
            = Some (mkResponse (strip_internal (resp_Header ex_resp))
                      (resp_body ex_resp))
          ∧ responses (coord w') = delete id (responses (coord w))
          ∧ waiting (coord w') = waiting (coord w).
Proof.
  intros ls w id.
  assert (threads w !! 2%nat = Some (TScrapeResult 0%nat SR_entry)) as Ht
    by (vm_compute; reflexivity).
  assert (resps w !! 0%nat = Some ex_resp) as Hr by (vm_compute; reflexivity).
  assert (Header_Get "Id" (resp_Header ex_resp) = id) as Hid
    by (vm_compute; reflexivity).
  assert (threads w !! 0%nat
          = Some (TDoScrape 7%nat 0%nat (DS_select2 id 1%nat))) as Hs
    by (vm_compute; reflexivity).
  assert (responses (coord w) !! id = Some 1%nat) as Hch
    by (vm_compute; reflexivity).
  split; [exact Ht|]. split; [exact Hr|]. split; [exact Hid|].
  split; [exact Hs|]. split; [exact Hch|].
  exact (result_meets_waiter (5 * Minute) ex_timeout w 2%nat 0%nat 0%nat
           ex_resp 7%nat 0%nat id 1%nat Ht Hr Hid Hs Hch).
Defined.

Lemma DoScrape_returns_without_slot_witness :
  let ls := (ex_handoff ++ [LRun 0%nat; LRun 2%nat; LRun 2%nat;
                            LResponse 2%nat 0%nat])%list in
  let w := default ex_trio (run (5 * Minute) ex_timeout ls ex_trio) in
  let w' := default w (step (5 * Minute) ex_timeout (LRun 0%nat) w) in
  let id := "1700000000-1-4242" in
  step (5 * Minute) ex_timeout (LRun 0%nat) w = Some w'
  ∧ threads w' !! 0%nat
    = Some (TDoScrape 7%nat 0%nat (DS_return (DS_ok 0%nat)))
  ∧ threads w !! 0%nat
    = Some (TDoScrape 7%nat 0%nat (DS_deferred id (DS_ok 0%nat)))
  ∧ responses (coord w) !! id = Some 1%nat
  ∧ ((LRun 0%nat = LDone 0%nat
      ∧ (∃ id0 ch, threads w !! 0%nat
                   = Some (TDoScrape 7%nat 0%nat (DS_select1 id0 ch)))
      ∧ (∃ url e, DS_ok 0%nat = DS_err (MatchingClientNotFound url e))
      ∧ coord w' = coord w)
     ∨ (LRun 0%nat = LRun 0%nat
        ∧ ∃ id0, threads w !! 0%nat
                 = Some (TDoScrape 7%nat 0%nat (DS_deferred id0 (DS_ok 0%nat)))
                 ∧ responses (coord w') !! id0 = None
                 ∧ waiting (coord w') = waiting (coord w)
                 ∧ known (coord w') = known (coord w))).
Proof.
  intros ls w w' id.
  assert (step (5 * Minute) ex_timeout (LRun 0%nat) w = Some w') as Hstep
    by (vm_compute; reflexivity).
  assert (threads w' !! 0%nat
          = Some (TDoScrape 7%nat 0%nat (DS_return (DS_ok 0%nat)))) as Ht'
    by (vm_compute; reflexivity).
  assert (threads w !! 0%nat
          = Some (TDoScrape 7%nat 0%nat (DS_deferred id (DS_ok 0%nat)))) as Ht
    by (vm_compute; reflexivity).
  assert (threads w !! 0%nat
          ≠ Some (TDoScrape 7%nat 0%nat (DS_return (DS_ok 0%nat)))) as Hn
    by (rewrite Ht; discriminate).
  split; [exact Hstep|]. split; [exact Ht'|]. split; [exact Ht|].
  split; [vm_compute; reflexivity|].
  exact (proj1 (DoScrape_returns_without_slot (5 * Minute) ex_timeout)
           (LRun 0%nat) w w' 0%nat 7%nat 0%nat (DS_ok 0%nat) Hstep Ht' Hn).
Defined.

Lemma response_slot_removed_only_by_its_users_witness :
  let ls := (ex_handoff ++ [LRun 0%nat; LRun 2%nat; LRun 2%nat;
                            LResponse 2%nat 0%nat])%list in
  let w := default ex_trio (run (5 * Minute) ex_timeout ls ex_trio) in
  let w' := default w (step (5 * Minute) ex_timeout (LRun 0%nat) w) in
  let id := "1700000000-1-4242" in
  step (5 * Minute) ex_timeout (LRun 0%nat) w = Some w'
  ∧ responses (coord w) !! id = Some 1%nat
  ∧ responses (coord w') !! id ≠ Some 1%nat
  ∧ responses (coord w') !! id = None.
Proof.
  intros ls w w' id.
  assert (step (5 * Minute) ex_timeout (LRun 0%nat) w = Some w') as Hstep
    by (vm_compute; reflexivity).
  assert (responses (coord w) !! id = Some 1%nat) as Hid
    by (vm_compute; reflexivity).
  assert (responses (coord w') !! id ≠ Some 1%nat) as Hn
    by (vm_compute; discriminate).
  split; [exact Hstep|]. split; [exact Hid|]. split; [exact Hn|].
  exact (proj1 (response_slot_removed_only_by_its_users (5 * Minute)
                  ex_timeout (LRun 0%nat) w w' id 1%nat Hstep Hid Hn)).
Defined.

Lemma registry_written_only_on_contact_witness :
  let w := ex_world [TWait "node1" W_entry] false in
  let w' := default w (step (5 * Minute) ex_timeout (LRun 0%nat) w) in
  step (5 * Minute) ex_timeout (LRun 0%nat) w = Some w'
  ∧ known (coord w') !! "node1" = Some (1700000000 * Second)
  ∧ known (coord w) !! "node1" ≠ Some (1700000000 * Second)
  ∧ 1700000000 * Second = clock w.
Proof.
  intros w w'.
  assert (step (5 * Minute) ex_timeout (LRun 0%nat) w = Some w') as Hstep
    by reflexivity.
  assert (known (coord w') !! "node1" = Some (1700000000 * Second)) as Hk
    by (vm_compute; reflexivity).
  assert (known (coord w) !! "node1" ≠ Some (1700000000 * Second)) as Hn
    by (vm_compute; discriminate).
  split; [exact Hstep|]. split; [exact Hk|]. split; [exact Hn|].
  exact (proj1 (registry_written_only_on_contact (5 * Minute) ex_timeout
                  (LRun 0%nat) w w' "node1" (1700000000 * Second)
                  Hstep Hk Hn)).
Defined.
